(** * IXSocketConnect: cancellable, timeout-bounded TCP connection establishment

    A shallow embedding of [ixwebsocket/IXSocketConnect.cpp] and the
    properties of its three functions, [SocketConnect::connectToAddress],
    [SocketConnect::connect] and [SocketConnect::configure].

    The code talks to the operating system and to two collaborators (the DNS
    resolver and the cancellation callback).  Their answers are not computed
    by the program, so they enter the model as an [environment]: a record of
    functions that give the answer of each call from the [history] of the
    calls made so far.  The program itself is a function from the history at
    which it starts to its result and the events it emits, in order. *)

From Stdlib Require Import ZArith List String Bool Lia Arith.
Import ListNotations.
Local Open Scope string_scope.
Local Open Scope list_scope.
Local Open Scope Z_scope.

(** ** Data *)

(** [struct addrinfo], the fields the program reads.  The [ai_next] chain is
    the list the candidate sits in. *)
Record addrinfo : Type := mk_addrinfo {
  ai_family : Z;
  ai_socktype : Z;
  ai_protocol : Z;
  ai_addr : list Byte.byte;
  ai_addrlen : Z
}.

(** Symbolic names of the options and levels the program passes. *)
Inductive sock_level : Type := IPPROTO_TCP | SOL_SOCKET.
Inductive sock_option : Type := TCP_NODELAY | SO_NOSIGPIPE | SO_ERROR.
Inductive fcntl_cmd : Type := F_SETFL.
Inductive fcntl_arg : Type := O_NONBLOCK.

(** One observable step of the program: a call and what it answered. *)
Inductive event : Type :=
| EvResolve (hostname : string) (port : Z) (res : list addrinfo)
| EvSocket (family socktype protocol : Z) (fd : Z)
| EvSetsockopt (fd : Z) (level : sock_level) (opt : sock_option) (value : Z) (r : Z)
| EvFcntl (fd : Z) (cmd : fcntl_cmd) (arg : fcntl_arg) (r : Z)
| EvConnect (fd : Z) (addr : list Byte.byte) (addrlen : Z) (r : Z)
| EvCancel (requested : bool)
| EvSelect (fd : Z) (usec : Z) (isset : bool)
| EvGetsockopt (fd : Z) (level : sock_level) (opt : sock_option) (r : Z) (optval : Z)
| EvClose (fd : Z)
| EvFreeaddrinfo (res : list addrinfo).

(** Events in the order they happened, oldest first. *)
Definition history : Type := list event.

(** [CancellationRequest]: the callback; what it answers may change as the
    call proceeds. *)
Definition CancellationRequest : Type := history -> bool.

(** What the platform headers fix: the value of [EINPROGRESS] and whether
    [SO_NOSIGPIPE] is defined.  The [_WIN32] branches are not modelled. *)
Record platform : Type := mk_platform {
  EINPROGRESS : Z;
  SO_NOSIGPIPE_defined : bool
}.

(** The answers of the system calls, of [DNSLookup::resolve] (which lives
    in another file: the candidates it gives and the value it leaves in
    [errMsg]) and of [strerror].  [os_errno h] is the value [errno] holds
    after history [h].
    [os_select] answers [FD_ISSET(fd, &wfds)] after the call;
    [os_getsockopt] takes the value [optval] held before the call and
    answers the return value and the value [optval] holds after it. *)
Record environment : Type := mk_environment {
  os_resolve : history -> string -> Z -> string -> CancellationRequest
               -> list addrinfo * string;
  os_socket : history -> Z -> Z -> Z -> Z;
  os_setsockopt : history -> Z -> sock_level -> sock_option -> Z -> Z;
  os_fcntl : history -> Z -> fcntl_cmd -> fcntl_arg -> Z;
  os_connect : history -> Z -> list Byte.byte -> Z -> Z;
  os_errno : history -> Z;
  os_select : history -> Z -> Z -> bool;
  os_getsockopt : history -> Z -> sock_level -> sock_option -> Z -> Z * Z;
  os_strerror : Z -> string
}.

(** ** The monad of the program: read the history, emit events *)

Definition M (A : Type) : Type := history -> A * list event.

Definition ret {A : Type} (a : A) : M A := fun _ => (a, []).

Definition bind {A B : Type} (m : M A) (f : A -> M B) : M B :=
  fun h =>
    let r := m h in
    let r' := f (fst r) (h ++ snd r) in
    (fst r', snd r ++ snd r').

Definition call {A : Type} (answer : history -> A) (ev : A -> event) : M A :=
  fun h => let a := answer h in (a, [ev a]).

Definition peek {A : Type} (answer : history -> A) : M A :=
  fun h => (answer h, []).

Declare Scope io_scope.
Delimit Scope io_scope with io.
Notation "x <- m ;; k" := (bind m (fun x => k))
  (at level 61, m at next level, right associativity) : io_scope.
Notation "m ;; k" := (bind m (fun _ => k))
  (at level 61, right associativity) : io_scope.
Local Open Scope io_scope.

(** The [int] of the platform: 32 bits, two's complement. *)
Definition int_wrap (z : Z) : Z := (z + 2 ^ 31) mod 2 ^ 32 - 2 ^ 31.

(** ** The program *)

Module SocketConnect.
Section Program.

Variable P : platform.
Variable os : environment.

(** [closeSocket], lines 39-46. *)
Definition closeSocket (fd : Z) : M unit :=
  call (fun _ => tt) (fun _ => EvClose fd).

(** [SocketConnect::configure], lines 181-201.  No result of the three calls
    is looked at, and the function returns nothing. *)
Definition configure (sockfd : Z) : M unit :=
  let flag := 1 in
  call (fun h => os_setsockopt os h sockfd IPPROTO_TCP TCP_NODELAY flag)
       (EvSetsockopt sockfd IPPROTO_TCP TCP_NODELAY flag) ;;
  call (fun h => os_fcntl os h sockfd F_SETFL O_NONBLOCK)
       (EvFcntl sockfd F_SETFL O_NONBLOCK) ;;
  if SO_NOSIGPIPE_defined P then
    let value := 1 in
    call (fun h => os_setsockopt os h sockfd SOL_SOCKET SO_NOSIGPIPE value)
         (EvSetsockopt sockfd SOL_SOCKET SO_NOSIGPIPE value) ;;
    ret tt
  else ret tt.

(** Lines 93-94. *)
Definition selectTimeOut : Z := int_wrap (50 * 1000).
Definition maxRetries : Z :=
  int_wrap (Z.quot (int_wrap (int_wrap (60 * 1000) * 1000)) selectTimeOut).

(** The result of [connectToAddress]: the returned [bool] and the two
    reference parameters [sockfd] and [errMsg] as they are on return. *)
Definition attempt_result : Type := (bool * Z * string)%type.

(** The [for] loop of lines 96-138.  The counter [i] runs from 0 to
    [maxRetries] and the body does not use it, so the loop is written by
    recursion on the number [n] of iterations left.  [Some] is a [return]
    from inside the loop, [None] is the loop running out. *)
Fixpoint connect_poll (isCancellationRequested : CancellationRequest)
    (n : nat) (fd sockfd : Z) (errMsg : string) : M (option attempt_result) :=
  match n with
  | O => ret None
  | S n' =>
      cancelled <- call isCancellationRequested EvCancel ;;
      if cancelled then
        closeSocket fd ;;
        ret (Some (false, sockfd, "Cancelled"))
      else
        isset <- call (fun h => os_select os h fd selectTimeOut)
                      (EvSelect fd selectTimeOut) ;;
        if negb isset then
          connect_poll isCancellationRequested n' fd sockfd errMsg
        else
          let optval := -1 in
          g <- call (fun h => os_getsockopt os h fd SOL_SOCKET SO_ERROR optval)
                    (fun g => EvGetsockopt fd SOL_SOCKET SO_ERROR (fst g) (snd g)) ;;
          let optval := snd g in
          if (fst g =? -1) || negb (optval =? 0) then
            closeSocket fd ;;
            ret (Some (false, sockfd, os_strerror os optval))
          else
            ret (Some (true, fd, errMsg))
  end.

(** Lines 93-142: the loop and the code after it. *)
Definition await_connection (isCancellationRequested : CancellationRequest)
    (fd sockfd : Z) (errMsg : string) : M attempt_result :=
  r <- connect_poll isCancellationRequested (Z.to_nat maxRetries) fd sockfd errMsg ;;
  match r with
  | Some out => ret out
  | None =>
      closeSocket fd ;;
      ret (false, sockfd, "connect timed out after 60 seconds")
  end.

(** [SocketConnect::connectToAddress], lines 56-143. *)
Definition connectToAddress (address : addrinfo) (sockfd : Z) (errMsg : string)
    (isCancellationRequested : CancellationRequest) : M attempt_result :=
  let sockfd := -1 in
  fd <- call (fun h => os_socket os h (ai_family address) (ai_socktype address)
                                      (ai_protocol address))
             (EvSocket (ai_family address) (ai_socktype address)
                       (ai_protocol address)) ;;
  if fd <? 0 then
    ret (false, sockfd, "Cannot create a socket")
  else
    configure fd ;;
    r <- call (fun h => os_connect os h fd (ai_addr address) (ai_addrlen address))
              (EvConnect fd (ai_addr address) (ai_addrlen address)) ;;
    errno <- peek (os_errno os) ;;
    if (r =? -1) && negb (errno =? EINPROGRESS P) then
      closeSocket fd ;;
      errno <- peek (os_errno os) ;;
      ret (false, sockfd, os_strerror os errno)
    else
      await_connection isCancellationRequested fd sockfd errMsg.

(** The [for] loop of lines 165-175 over the [ai_next] chain. *)
Fixpoint connect_loop (addresses : list addrinfo) (success : bool) (sockfd : Z)
    (errMsg : string) (isCancellationRequested : CancellationRequest)
    : M attempt_result :=
  match addresses with
  | [] => ret (success, sockfd, errMsg)
  | address :: ai_next =>
      out <- connectToAddress address sockfd errMsg isCancellationRequested ;;
      let '(success, sockfd, errMsg) := out in
      if success then ret (success, sockfd, errMsg)
      else connect_loop ai_next success sockfd errMsg isCancellationRequested
  end.

(** [SocketConnect::connect], lines 145-179: the returned [int] and [errMsg]
    on return.  A null [res] is the empty list. *)
Definition connect (hostname : string) (port : Z) (errMsg : string)
    (isCancellationRequested : CancellationRequest) : M (Z * string) :=
  d <- call (fun h => os_resolve os h hostname port errMsg
                        isCancellationRequested)
            (fun d => EvResolve hostname port (fst d)) ;;
  let res := fst d in
  let errMsg := snd d in
  match res with
  | [] => ret (-1, errMsg)
  | _ :: _ =>
      let sockfd := -1 in
      out <- connect_loop res false sockfd errMsg isCancellationRequested ;;
      let '(success, sockfd, errMsg) := out in
      call (fun _ => tt) (fun _ => EvFreeaddrinfo res) ;;
      ret (sockfd, errMsg)
  end.

End Program.
End SocketConnect.

Import SocketConnect.

(** ** Observing a run *)

(** [k] turns of the loop in which nothing happened: no cancellation, the
    descriptor not writable within the slice. *)
Fixpoint idle_rounds (fd : Z) (k : nat) : list event :=
  match k with
  | O => []
  | S k' => EvCancel false :: EvSelect fd selectTimeOut false :: idle_rounds fd k'
  end.

(** From history [h] on, the first [k] turns of the loop on [fd] are idle. *)
Definition idle_until (os : environment) (cancel : CancellationRequest)
    (fd : Z) (h : history) (k : nat) : Prop :=
  forall j : nat, (j < k)%nat ->
    cancel (h ++ idle_rounds fd j) = false /\
    os_select os (h ++ idle_rounds fd j ++ [EvCancel false]) fd selectTimeOut
      = false.

(** The descriptors that are open and not closed yet, event by event. *)
Fixpoint remove_first (fd : Z) (live : list Z) : list Z :=
  match live with
  | [] => []
  | x :: t => if x =? fd then t else x :: remove_first fd t
  end.

Definition live_step (live : list Z) (e : event) : list Z :=
  match e with
  | EvSocket _ _ _ fd => if fd <? 0 then live else fd :: live
  | EvClose fd => remove_first fd live
  | _ => live
  end.

Definition live_after (live : list Z) (es : list event) : list Z :=
  fold_left live_step es live.

(** The [socket] calls of a run, in order, by their arguments. *)
Definition socket_args (a : addrinfo) : Z * Z * Z :=
  (ai_family a, ai_socktype a, ai_protocol a).

Fixpoint socket_calls (es : list event) : list (Z * Z * Z) :=
  match es with
  | [] => []
  | EvSocket f t p _ :: tl => (f, t, p) :: socket_calls tl
  | _ :: tl => socket_calls tl
  end.

(** Sockets created ([socket] answered a descriptor) and sockets closed. *)
Fixpoint sockets_opened (es : list event) : nat :=
  match es with
  | [] => O
  | EvSocket _ _ _ fd :: tl =>
      if fd <? 0 then sockets_opened tl else S (sockets_opened tl)
  | _ :: tl => sockets_opened tl
  end.

Fixpoint sockets_closed (es : list event) : nat :=
  match es with
  | [] => O
  | EvClose _ :: tl => S (sockets_closed tl)
  | _ :: tl => sockets_closed tl
  end.

(** Events of [configure]. *)
Definition is_config (e : event) : bool :=
  match e with
  | EvSetsockopt _ _ _ _ _ | EvFcntl _ _ _ _ => true
  | _ => false
  end.

(** Events that create or close a descriptor. *)
Definition is_open_close (e : event) : bool :=
  match e with
  | EvSocket _ _ _ _ | EvClose _ => true
  | _ => false
  end.

(** Events of the readiness-polling loop. *)
Definition is_poll (e : event) : bool :=
  match e with
  | EvCancel _ | EvSelect _ _ _ => true
  | _ => false
  end.

(** The shape of the loop and the code after it, [n] turns left: the result
    and the events. *)
Inductive await_run (os : environment) (fd sockfd : Z) (errMsg : string)
    : nat -> attempt_result -> list event -> Prop :=
| ar_timed_out :
    await_run os fd sockfd errMsg O
      (false, sockfd, "connect timed out after 60 seconds") [EvClose fd]
| ar_cancelled n :
    await_run os fd sockfd errMsg (S n)
      (false, sockfd, "Cancelled") [EvCancel true; EvClose fd]
| ar_idle n out tl :
    await_run os fd sockfd errMsg n out tl ->
    await_run os fd sockfd errMsg (S n) out
      (EvCancel false :: EvSelect fd selectTimeOut false :: tl)
| ar_connected n r :
    r <> -1 ->
    await_run os fd sockfd errMsg (S n) (true, fd, errMsg)
      [EvCancel false; EvSelect fd selectTimeOut true;
       EvGetsockopt fd SOL_SOCKET SO_ERROR r 0]
| ar_failed n r optval :
    r = -1 \/ optval <> 0 ->
    await_run os fd sockfd errMsg (S n) (false, sockfd, os_strerror os optval)
      [EvCancel false; EvSelect fd selectTimeOut true;
       EvGetsockopt fd SOL_SOCKET SO_ERROR r optval; EvClose fd].

(** The candidates of a list are attempted in turn from history [h] with
    [errMsg] as it stands, and every attempt fails: the message left by the
    last one and the events of them all. *)
Inductive attempts_fail (P : platform) (os : environment)
    (cancel : CancellationRequest)
    : list addrinfo -> string -> history -> string -> list event -> Prop :=
| af_nil errMsg h :
    attempts_fail P os cancel [] errMsg h errMsg []
| af_cons a l errMsg h sockfd m es m' es' :
    connectToAddress P os a (-1) errMsg cancel h = ((false, sockfd, m), es) ->
    attempts_fail P os cancel l m (h ++ es) m' es' ->
    attempts_fail P os cancel (a :: l) errMsg h m' (es ++ es').


(** [socket] calls that answered no descriptor. *)
Fixpoint socket_failures (es : list event) : nat :=
  match es with
  | [] => O
  | EvSocket _ _ _ fd :: tl =>
      if fd <? 0 then S (socket_failures tl) else socket_failures tl
  | _ :: tl => socket_failures tl
  end.

(** At every moment of a run that starts with no descriptor open, at most
    one descriptor is open. *)
Definition at_most_one_live (es : list event) : Prop :=
  forall k : nat, (List.length (live_after [] (firstn k es)) <= 1)%nat.

Definition quiet (e : event) : bool := negb (is_open_close e).

(** The code after the loop (lines 140-142), applied to what the loop gave. *)
Definition finish (fd sockfd : Z) (r : option attempt_result * list event)
    : attempt_result * list event :=
  match fst r with
  | Some out => (out, snd r)
  | None => ((false, sockfd, "connect timed out after 60 seconds"),
             snd r ++ [EvClose fd])
  end.

(** The attempt up to the loop (lines 61-82): [Some] of the descriptor and the
    events so far when a socket was created and [connect] did not fail at
    once, [None] when the attempt ended there. *)
Definition started (P : platform) (os : environment) (a : addrinfo)
    (h : history) : option (Z * list event) :=
  let fd := os_socket os h (ai_family a) (ai_socktype a) (ai_protocol a) in
  let e0 := EvSocket (ai_family a) (ai_socktype a) (ai_protocol a) fd in
  if fd <? 0 then None
  else
    let cfg := snd (configure P os fd (h ++ [e0])) in
    let r := os_connect os (h ++ e0 :: cfg) fd (ai_addr a) (ai_addrlen a) in
    let ec := EvConnect fd (ai_addr a) (ai_addrlen a) r in
    if (r =? -1) && negb (os_errno os (h ++ e0 :: cfg ++ [ec]) =? EINPROGRESS P)
    then None
    else Some (fd, e0 :: cfg ++ [ec]).

(** ** Measures of a run *)

(** The sum of a weight over the events of a run. *)
Fixpoint total (w : event -> Z) (es : list event) : Z :=
  match es with
  | [] => 0
  | e :: tl => w e + total w tl
  end.

(** The time a [select] call may wait, in microseconds. *)
Definition select_usec (e : event) : Z :=
  match e with
  | EvSelect _ usec _ => usec
  | _ => 0
  end.

(** Weight 1 on the events of a kind: [total (one_if p)] counts them. *)
Definition one_if (p : event -> bool) (e : event) : Z :=
  if p e then 1 else 0.

Definition is_select (e : event) : bool :=
  match e with EvSelect _ _ _ => true | _ => false end.

Definition is_cancel_poll (e : event) : bool :=
  match e with EvCancel _ => true | _ => false end.

Definition is_getsockopt (e : event) : bool :=
  match e with EvGetsockopt _ _ _ _ _ => true | _ => false end.

Definition is_connect (e : event) : bool :=
  match e with EvConnect _ _ _ _ => true | _ => false end.

Definition is_resolve_or_free (e : event) : bool :=
  match e with EvResolve _ _ _ | EvFreeaddrinfo _ => true | _ => false end.

(** Every [close] of a run is of a descriptor that is live when it is made. *)
Fixpoint closes_only_live (live : list Z) (es : list event) : Prop :=
  match es with
  | [] => True
  | e :: tl =>
      match e with
      | EvClose fd => In fd live
      | _ => True
      end /\ closes_only_live (live_step live e) tl
  end.

(** The number of calls [configure] makes on the platform. *)
Definition configure_calls (P : platform) : Z :=
  if SO_NOSIGPIPE_defined P then 3 else 2.

(** ** Statements that the program is tested against *)

(** Cancellation and timeout end the whole call: when the attempt on a
    candidate ends cancelled or timed out, the call returns that failure and
    nothing is done for the candidates after it. *)
Definition short_circuit_claim (P : platform) (os : environment)
    (cancel : CancellationRequest) (hostname : string) (port : Z)
    (errMsg : string) (h : history) : Prop :=
  let d := os_resolve os h hostname port errMsg cancel in
  let e := EvResolve hostname port (fst d) in
  forall pre a post m1 es1 s m es,
    fst d = pre ++ a :: post ->
    attempts_fail P os cancel pre (snd d) (h ++ [e]) m1 es1 ->
    connectToAddress P os a (-1) m1 cancel (h ++ e :: es1) = ((false, s, m), es) ->
    m = "Cancelled" \/ m = "connect timed out after 60 seconds" ->
    connect P os hostname port errMsg cancel h
    = ((-1, m), e :: es1 ++ es ++ [EvFreeaddrinfo (fst d)]).

(** Non-blocking mode is mandatory: when [fcntl] fails on the new socket, the
    attempt fails and never enters the loop. *)
Definition nonblocking_mandatory_claim (P : platform) (os : environment)
    (cancel : CancellationRequest) (a : addrinfo) (errMsg : string)
    (h : history) : Prop :=
  let r := connectToAddress P os a (-1) errMsg cancel h in
  forall pre fd post,
    snd r = pre ++ EvFcntl fd F_SETFL O_NONBLOCK (-1) :: post ->
    fst (fst (fst r)) = false /\
    forallb (fun e => negb (is_poll e)) post = true.

(** Before [connect] only non-blocking mode is set; the three steps of the
    configuration are applied after the attempt has succeeded. *)
Definition configure_after_success_claim (P : platform) (os : environment)
    (cancel : CancellationRequest) (a : addrinfo) (errMsg : string)
    (h : history) : Prop :=
  let r := connectToAddress P os a (-1) errMsg cancel h in
  forall pre fd rc post,
    snd r = pre ++ EvConnect fd (ai_addr a) (ai_addrlen a) rc :: post ->
    (forall e, In e pre -> is_config e = true ->
               exists x, e = EvFcntl fd F_SETFL O_NONBLOCK x) /\
    (fst (fst (fst r)) = true ->
     exists x, In (EvSetsockopt fd IPPROTO_TCP TCP_NODELAY 1 x) post).

(** When every attempt fails the call fails with the message of the last
    attempt, and as many sockets were opened, and closed, as there are
    candidates. *)
Definition all_fail_claim (P : platform) (os : environment)
    (cancel : CancellationRequest) (hostname : string) (port : Z)
    (errMsg : string) (h : history) : Prop :=
  let d := os_resolve os h hostname port errMsg cancel in
  let e := EvResolve hostname port (fst d) in
  let r := connect P os hostname port errMsg cancel h in
  forall m es,
    attempts_fail P os cancel (fst d) (snd d) (h ++ [e]) m es ->
    fst r = (-1, m) /\
    sockets_opened (snd r) = List.length (fst d) /\
    sockets_closed (snd r) = List.length (fst d).

(** ** Sample platforms, candidates and environments *)

Definition linux : platform := mk_platform 115 false.
Definition darwin : platform := mk_platform 36 true.

(** What becomes of a connection attempt to an address. *)
Inductive fate : Type := Reachable | Refused | Silent.

Fixpoint addr_eqb (x y : list Byte.byte) : bool :=
  match x, y with
  | [], [] => true
  | b :: x', c :: y' => Byte.eqb b c && addr_eqb x' y'
  | _, _ => false
  end.

(** The address of the latest [connect] call of a history. *)
Fixpoint last_connect_addr (h : history) (acc : list Byte.byte)
    : list Byte.byte :=
  match h with
  | [] => acc
  | EvConnect _ addr _ _ :: t => last_connect_addr t addr
  | _ :: t => last_connect_addr t acc
  end.

(** An environment that resolves every name to [res], creates descriptor 3
    for family 2 and no socket for another family, answers [fcntl_r] to
    [fcntl], starts every connection in the background, and settles it by
    the fate of the address. *)
Definition sample_os (res : list addrinfo) (fcntl_r : Z)
    (fate_of : list Byte.byte -> fate) : environment :=
  {| os_resolve := fun _ _ _ errMsg _ => (res, errMsg);
     os_socket := fun _ family _ _ => if family =? 2 then 3 else -1;
     os_setsockopt := fun _ _ _ _ _ => 0;
     os_fcntl := fun _ _ _ _ => fcntl_r;
     os_connect := fun _ _ _ _ => -1;
     os_errno := fun _ => 115;
     os_select := fun h _ _ =>
       match fate_of (last_connect_addr h []) with
       | Silent => false
       | _ => true
       end;
     os_getsockopt := fun h _ _ _ optval =>
       match fate_of (last_connect_addr h []) with
       | Reachable => (0, 0)
       | Refused => (0, 111)
       | Silent => (-1, optval)
       end;
     os_strerror := fun e =>
       if e =? 111 then "Connection refused"
       else if e =? 0 then "Success" else "Unknown error" |}.

Definition addr_A : list Byte.byte := [Byte.x0a; Byte.x00; Byte.x00; Byte.x01].
Definition addr_B : list Byte.byte := [Byte.x0a; Byte.x00; Byte.x00; Byte.x02].
Definition addr_C : list Byte.byte := [Byte.x0a; Byte.x00; Byte.x00; Byte.x03].

Definition cand_A : addrinfo := mk_addrinfo 2 1 6 addr_A 16.
Definition cand_B : addrinfo := mk_addrinfo 2 1 6 addr_B 16.
Definition cand_C : addrinfo := mk_addrinfo 2 1 6 addr_C 16.
(** A candidate of a family for which no socket can be created. *)
Definition cand_X : addrinfo := mk_addrinfo 10 1 6 addr_A 28.

(** A refuses, B accepts, C never answers. *)
Definition fates (addr : list Byte.byte) : fate :=
  if addr_eqb addr addr_B then Reachable
  else if addr_eqb addr addr_C then Silent
  else Refused.

(** An environment in which [connect] fails at once with error 111 and the
    [close] that follows leaves error 5 in [errno]. *)
Definition abrupt_os (res : list addrinfo) : environment :=
  {| os_resolve := fun _ _ _ errMsg _ => (res, errMsg);
     os_socket := fun _ _ _ _ => 3;
     os_setsockopt := fun _ _ _ _ _ => 0;
     os_fcntl := fun _ _ _ _ => 0;
     os_connect := fun _ _ _ _ => -1;
     os_errno := fun h =>
       match last h (EvCancel false) with
       | EvClose _ => 5
       | _ => 111
       end;
     os_select := fun _ _ _ => false;
     os_getsockopt := fun _ _ _ _ optval => (-1, optval);
     os_strerror := fun e =>
       if e =? 111 then "Connection refused"
       else if e =? 5 then "Input/output error" else "Unknown error" |}.

(** An environment in which every connection stays in progress and no
    descriptor is ever reported writable. *)
Definition silent_os (res : list addrinfo) : environment :=
  {| os_resolve := fun _ _ _ errMsg _ => (res, errMsg);
     os_socket := fun _ _ _ _ => 3;
     os_setsockopt := fun _ _ _ _ _ => 0;
     os_fcntl := fun _ _ _ _ => 0;
     os_connect := fun _ _ _ _ => -1;
     os_errno := fun _ => 115;
     os_select := fun _ _ _ => false;
     os_getsockopt := fun _ _ _ _ optval => (-1, optval);
     os_strerror := fun _ => "Unknown error" |}.

Definition never_cancelled : CancellationRequest := fun _ => false.
Definition always_cancelled : CancellationRequest := fun _ => true.

(** The events of the sample attempts. *)
Definition sample_prologue (addr : list Byte.byte) : list event :=
  [EvSocket 2 1 6 3; EvSetsockopt 3 IPPROTO_TCP TCP_NODELAY 1 0;
   EvFcntl 3 F_SETFL O_NONBLOCK 0; EvConnect 3 addr 16 (-1)].

Definition sample_refused (addr : list Byte.byte) : list event :=
  sample_prologue addr
  ++ [EvCancel false; EvSelect 3 50000 true;
      EvGetsockopt 3 SOL_SOCKET SO_ERROR 0 111; EvClose 3].

Definition sample_connected (addr : list Byte.byte) : list event :=
  sample_prologue addr
  ++ [EvCancel false; EvSelect 3 50000 true;
      EvGetsockopt 3 SOL_SOCKET SO_ERROR 0 0].

Definition sample_cancelled (addr : list Byte.byte) : list event :=
  sample_prologue addr ++ [EvCancel true; EvClose 3].

(** ** Running the program: equations *)

(** Lists of events written with [++] and [::], brought to one form. *)
Ltac norm_app :=
  repeat (progress (rewrite <- ?app_assoc, <- ?app_comm_cons, ?app_nil_l,
                    ?app_nil_r)).
Tactic Notation "norm_app" "in" hyp(H) :=
  repeat (progress (rewrite <- ?app_assoc, <- ?app_comm_cons, ?app_nil_l,
                    ?app_nil_r in H)).

Section Equations.

Variable P : platform.
Variable os : environment.
Variable cancel : CancellationRequest.

Lemma bind_eq {A B : Type} (m : M A) (f : A -> M B) (h : history) :
  bind m f h = (fst (f (fst (m h)) (h ++ snd (m h))),
                snd (m h) ++ snd (f (fst (m h)) (h ++ snd (m h)))).
Proof. reflexivity. Qed.

Lemma selectTimeOut_eq : selectTimeOut = 50000.
Proof. reflexivity. Qed.

Lemma maxRetries_eq : maxRetries = 1200.
Proof. reflexivity. Qed.

(** One turn of the loop, case by case. *)
Lemma connect_poll_S (n : nat) (fd sockfd : Z) (errMsg : string) (h : history) :
  connect_poll os cancel (S n) fd sockfd errMsg h =
  if cancel h then
    (Some (false, sockfd, "Cancelled"), [EvCancel true; EvClose fd])
  else if os_select os (h ++ [EvCancel false]) fd selectTimeOut then
    let hg := h ++ [EvCancel false; EvSelect fd selectTimeOut true] in
    let g := os_getsockopt os hg fd SOL_SOCKET SO_ERROR (-1) in
    if (fst g =? -1) || negb (snd g =? 0) then
      (Some (false, sockfd, os_strerror os (snd g)),
       [EvCancel false; EvSelect fd selectTimeOut true;
        EvGetsockopt fd SOL_SOCKET SO_ERROR (fst g) (snd g); EvClose fd])
    else
      (Some (true, fd, errMsg),
       [EvCancel false; EvSelect fd selectTimeOut true;
        EvGetsockopt fd SOL_SOCKET SO_ERROR (fst g) (snd g)])
  else
    let r := connect_poll os cancel n fd sockfd errMsg
               (h ++ [EvCancel false; EvSelect fd selectTimeOut false]) in
    (fst r, EvCancel false :: EvSelect fd selectTimeOut false :: snd r).
Proof.
  cbn [connect_poll]. unfold bind, call, closeSocket, ret. cbn [fst snd].
  destruct (cancel h) eqn:Hc; cbn [fst snd app]; [reflexivity|].
  destruct (os_select os (h ++ [EvCancel false]) fd selectTimeOut) eqn:Hs;
    cbn [negb fst snd app]; rewrite <- !app_assoc; cbn [app].
  - destruct ((_ =? -1) || _); reflexivity.
  - reflexivity.
Qed.

(** The loop and the code after it. *)
Lemma await_connection_eq (fd sockfd : Z) (errMsg : string) (h : history) :
  await_connection os cancel fd sockfd errMsg h =
  let r := connect_poll os cancel (Z.to_nat maxRetries) fd sockfd errMsg h in
  match fst r with
  | Some out => (out, snd r)
  | None => ((false, sockfd, "connect timed out after 60 seconds"),
             snd r ++ [EvClose fd])
  end.
Proof.
  unfold await_connection. rewrite bind_eq. cbv zeta.
  destruct (fst (connect_poll _ _ _ _ _ _ _)); cbn.
  - now rewrite app_nil_r.
  - reflexivity.
Qed.

(** What [configure] emits: two events, three where [SO_NOSIGPIPE] exists. *)
Lemma configure_eq (sockfd : Z) (h : history) :
  snd (configure P os sockfd h) =
  let e1 := EvSetsockopt sockfd IPPROTO_TCP TCP_NODELAY 1
              (os_setsockopt os h sockfd IPPROTO_TCP TCP_NODELAY 1) in
  let e2 := EvFcntl sockfd F_SETFL O_NONBLOCK
              (os_fcntl os (h ++ [e1]) sockfd F_SETFL O_NONBLOCK) in
  e1 :: e2 ::
  if SO_NOSIGPIPE_defined P then
    [EvSetsockopt sockfd SOL_SOCKET SO_NOSIGPIPE 1
       (os_setsockopt os (h ++ [e1; e2]) sockfd SOL_SOCKET SO_NOSIGPIPE 1)]
  else [].
Proof.
  unfold configure, bind, call, ret. cbn [fst snd app].
  rewrite <- !app_assoc. cbn [app].
  destruct (SO_NOSIGPIPE_defined P); reflexivity.
Qed.

(** One attempt, case by case. *)
Lemma connectToAddress_eq (a : addrinfo) (sockfd0 : Z) (errMsg : string)
    (h : history) :
  connectToAddress P os a sockfd0 errMsg cancel h =
  let fd := os_socket os h (ai_family a) (ai_socktype a) (ai_protocol a) in
  let e0 := EvSocket (ai_family a) (ai_socktype a) (ai_protocol a) fd in
  if fd <? 0 then ((false, -1, "Cannot create a socket"), [e0])
  else
    let cfg := snd (configure P os fd (h ++ [e0])) in
    let r := os_connect os (h ++ e0 :: cfg) fd (ai_addr a) (ai_addrlen a) in
    let ec := EvConnect fd (ai_addr a) (ai_addrlen a) r in
    let h2 := h ++ e0 :: cfg ++ [ec] in
    if (r =? -1) && negb (os_errno os h2 =? EINPROGRESS P) then
      ((false, -1, os_strerror os (os_errno os (h2 ++ [EvClose fd]))),
       e0 :: cfg ++ [ec; EvClose fd])
    else
      let w := await_connection os cancel fd (-1) errMsg h2 in
      (fst w, e0 :: cfg ++ ec :: snd w).
Proof.
  unfold connectToAddress, bind, call, peek, closeSocket, ret.
  cbn [fst snd]. cbv zeta.
  set (fd := os_socket os h _ _ _).
  destruct (fd <? 0); [reflexivity|].
  cbn [fst snd]. norm_app.
  set (cfg := snd (configure P os fd _)).
  set (r := os_connect os _ _ _ _).
  destruct ((_ =? -1) && _); cbn [fst snd]; norm_app; reflexivity.
Qed.

(** The failover loop: one candidate. *)
Lemma connect_loop_cons (a : addrinfo) (l : list addrinfo) (success : bool)
    (sockfd : Z) (errMsg : string) (h : history) :
  connect_loop P os (a :: l) success sockfd errMsg cancel h =
  let r := connectToAddress P os a sockfd errMsg cancel h in
  if fst (fst (fst r)) then r
  else
    let r' := connect_loop P os l false (snd (fst (fst r))) (snd (fst r))
                cancel (h ++ snd r) in
    (fst r', snd r ++ snd r').
Proof.
  cbn [connect_loop]. rewrite bind_eq. cbv zeta.
  destruct (connectToAddress P os a sockfd errMsg cancel h)
    as [[[b s] m] es].
  cbn [fst snd]. destruct b; cbn.
  - now rewrite app_nil_r.
  - reflexivity.
Qed.

(** The whole call. *)
Lemma connect_eq (hostname : string) (port : Z) (errMsg : string) (h : history) :
  connect P os hostname port errMsg cancel h =
  let d := os_resolve os h hostname port errMsg cancel in
  let e := EvResolve hostname port (fst d) in
  match fst d with
  | [] => ((-1, snd d), [e])
  | _ :: _ =>
      let r := connect_loop P os (fst d) false (-1) (snd d) cancel (h ++ [e]) in
      ((snd (fst (fst r)), snd (fst r)), e :: snd r ++ [EvFreeaddrinfo (fst d)])
  end.
Proof.
  unfold connect, bind, call, ret. cbn [fst snd]. cbv zeta.
  destruct (fst (os_resolve os h hostname port errMsg cancel)) as [|a l] eqn:Hres.
  - reflexivity.
  - destruct (connect_loop P os (a :: l) false (-1) _ cancel (h ++ _))
      as [[[b s] m] es].
    cbn [fst snd]. norm_app. reflexivity.
Qed.

End Equations.

(** ** The readiness-polling loop *)

Section Loop.

Variable os : environment.
Variable cancel : CancellationRequest.
Variables (fd sockfd : Z) (errMsg : string).

Lemma idle_until_head (h : history) (k : nat) :
  idle_until os cancel fd h (S k) ->
  cancel h = false /\
  os_select os (h ++ [EvCancel false]) fd selectTimeOut = false.
Proof.
  intros H. destruct (H O) as [Hc Hs]; [lia|].
  cbn [idle_rounds] in Hc, Hs. rewrite app_nil_r in Hc. now split.
Qed.

Lemma idle_until_tail (h : history) (k : nat) :
  idle_until os cancel fd h (S k) ->
  idle_until os cancel fd
    (h ++ [EvCancel false; EvSelect fd selectTimeOut false]) k.
Proof.
  intros H j Hj. destruct (H (S j)) as [Hc Hs]; [lia|].
  cbn [idle_rounds] in Hc, Hs. norm_app. norm_app in Hc. norm_app in Hs.
  now split.
Qed.

(** Idle turns are passed over: the loop goes on after them. *)
Lemma connect_poll_idle (k n : nat) (h : history) :
  idle_until os cancel fd h k ->
  connect_poll os cancel (k + n) fd sockfd errMsg h =
  let r := connect_poll os cancel n fd sockfd errMsg (h ++ idle_rounds fd k) in
  (fst r, idle_rounds fd k ++ snd r).
Proof.
  revert h. induction k as [|k IH]; intros h Hidle.
  - cbn [idle_rounds Nat.add app]. rewrite app_nil_r. cbv zeta.
    now destruct (connect_poll _ _ _ _ _ _ _).
  - destruct (idle_until_head h k Hidle) as [Hc Hs].
    cbn [Nat.add]. rewrite connect_poll_S, Hc, Hs. cbv zeta.
    rewrite (IH _ (idle_until_tail h k Hidle)). cbv zeta.
    cbn [fst snd idle_rounds]. norm_app. reflexivity.
Qed.

(** The loop and the code after it have the shape [await_run]. *)
Lemma connect_poll_run (n : nat) (h : history) :
  let r := finish fd sockfd (connect_poll os cancel n fd sockfd errMsg h) in
  await_run os fd sockfd errMsg n (fst r) (snd r).
Proof.
  revert h. induction n as [|n IH]; intros h.
  - cbn. constructor.
  - cbv zeta. rewrite connect_poll_S.
    destruct (cancel h); [cbn; constructor|].
    destruct (os_select os _ fd selectTimeOut).
    + cbv zeta.
      destruct (os_getsockopt os _ fd SOL_SOCKET SO_ERROR (-1)) as [r v].
      cbn [fst snd].
      destruct (Z.eqb_spec r (-1)) as [Hr|Hr]; cbn [orb].
      * cbn. constructor. now left.
      * destruct (Z.eqb_spec v 0) as [Hv|Hv]; cbn [negb].
        -- subst v. cbn. now constructor.
        -- cbn. constructor. now right.
    + cbv zeta. specialize (IH (h ++ [EvCancel false;
                                      EvSelect fd selectTimeOut false])).
      cbv zeta in IH. unfold finish in *. cbn [fst snd].
      destruct (fst (connect_poll os cancel n fd sockfd errMsg _));
        cbn [fst snd] in *; norm_app; now constructor.
Qed.

Lemma await_connection_run (h : history) :
  let r := await_connection os cancel fd sockfd errMsg h in
  await_run os fd sockfd errMsg (Z.to_nat maxRetries) (fst r) (snd r).
Proof.
  cbv zeta. rewrite await_connection_eq.
  exact (connect_poll_run (Z.to_nat maxRetries) h).
Qed.

End Loop.

(** ** What the shape of the loop gives *)

Section Shape.

Variable os : environment.
Variables (fd sockfd : Z) (errMsg : string).



End Shape.

(** ** One attempt *)

Section Attempt.

Variable P : platform.
Variable os : environment.
Variable cancel : CancellationRequest.

(** An attempt that reaches the loop ends as the loop ends. *)
Lemma connectToAddress_started (a : addrinfo) (sockfd0 : Z) (errMsg : string)
    (h : history) (fd : Z) (pro : list event) :
  started P os a h = Some (fd, pro) ->
  connectToAddress P os a sockfd0 errMsg cancel h =
  let w := await_connection os cancel fd (-1) errMsg (h ++ pro) in
  (fst w, pro ++ snd w).
Proof.
  unfold started. rewrite connectToAddress_eq. cbv zeta.
  set (fd0 := os_socket os h _ _ _).
  set (cfg := snd (configure P os fd0 _)).
  set (r := os_connect os _ _ _ _).
  clearbody r. clearbody cfg. clearbody fd0.
  destruct (fd0 <? 0); [discriminate|].
  destruct ((_ =? -1) && _); [discriminate|].
  intros E. injection E as <- <-. norm_app. reflexivity.
Qed.



End Attempt.


(** ** The loop inside an attempt *)

Section AttemptLoop.

Variable P : platform.
Variable os : environment.
Variable cancel : CancellationRequest.

(** The turn at which the descriptor is reported writable ends the loop. *)
Lemma connect_poll_settles (fd sockfd : Z) (errMsg : string) (h : history)
    (k m : nat) :
  idle_until os cancel fd h k ->
  cancel (h ++ idle_rounds fd k) = false ->
  os_select os (h ++ idle_rounds fd k ++ [EvCancel false]) fd selectTimeOut
    = true ->
  let seen := idle_rounds fd k ++ [EvCancel false; EvSelect fd selectTimeOut true] in
  let g := os_getsockopt os (h ++ seen) fd SOL_SOCKET SO_ERROR (-1) in
  let status := EvGetsockopt fd SOL_SOCKET SO_ERROR (fst g) (snd g) in
  connect_poll os cancel (k + S m) fd sockfd errMsg h =
  if (fst g =? -1) || negb (snd g =? 0) then
    (Some (false, sockfd, os_strerror os (snd g)), seen ++ [status; EvClose fd])
  else
    (Some (true, fd, errMsg), seen ++ [status]).
Proof.
  intros Hidle Hc Hs. cbv zeta.
  rewrite (connect_poll_idle os cancel fd sockfd errMsg k (S m) h Hidle).
  cbv zeta. rewrite connect_poll_S, Hc.
  norm_app. rewrite Hs. cbv zeta. norm_app.
  destruct ((_ =? -1) || _); cbn [fst snd]; norm_app; reflexivity.
Qed.

(** C6. When the readiness wait reports the socket writable (at any turn of
    the loop, the turns before it having been idle), the attempt reads the
    pending error of the socket with [getsockopt(SO_ERROR)]: when the read
    succeeds and the value is zero the attempt succeeds and hands back the
    descriptor, without closing it; when the read fails or the value is not
    zero the attempt closes the socket and fails with [strerror] of the
    value as its message. *)
Theorem writable_settles_by_pending_error (a : addrinfo) (sockfd0 : Z)
    (errMsg : string) (h : history) (fd : Z) (pro : list event) (k : nat) :
  started P os a h = Some (fd, pro) ->
  (k < Z.to_nat maxRetries)%nat ->
  idle_until os cancel fd (h ++ pro) k ->
  cancel (h ++ pro ++ idle_rounds fd k) = false ->
  os_select os (h ++ pro ++ idle_rounds fd k ++ [EvCancel false]) fd
    selectTimeOut = true ->
  let seen := pro ++ idle_rounds fd k
                  ++ [EvCancel false; EvSelect fd selectTimeOut true] in
  let g := os_getsockopt os (h ++ seen) fd SOL_SOCKET SO_ERROR (-1) in
  let status := EvGetsockopt fd SOL_SOCKET SO_ERROR (fst g) (snd g) in
  (fst g <> -1 /\ snd g = 0 ->
   connectToAddress P os a sockfd0 errMsg cancel h
   = ((true, fd, errMsg), seen ++ [status])) /\
  (fst g = -1 \/ snd g <> 0 ->
   connectToAddress P os a sockfd0 errMsg cancel h
   = ((false, -1, os_strerror os (snd g)), seen ++ [status; EvClose fd])).
Proof.
  intros Hst Hk Hidle Hc Hs. cbv zeta.
  rewrite (connectToAddress_started P os cancel a sockfd0 errMsg h fd pro Hst).
  cbv zeta. rewrite await_connection_eq. cbv zeta.
  replace (Z.to_nat maxRetries)
    with (k + S (Z.to_nat maxRetries - S k))%nat by lia.
  norm_app in Hc. norm_app in Hs.
  assert (Hc' : cancel ((h ++ pro) ++ idle_rounds fd k) = false)
    by (norm_app; exact Hc).
  assert (Hs' : os_select os ((h ++ pro) ++ idle_rounds fd k ++ [EvCancel false])
                  fd selectTimeOut = true) by (norm_app; exact Hs).
  rewrite (connect_poll_settles fd (-1) errMsg (h ++ pro) k _ Hidle Hc' Hs').
  norm_app.
  set (g := os_getsockopt os _ fd SOL_SOCKET SO_ERROR (-1)).
  split.
  - intros [Hr Hv].
    apply Z.eqb_neq in Hr. rewrite Hr, Hv. cbn. norm_app. reflexivity.
  - intros Hrv.
    assert (E : (fst g =? -1) || negb (snd g =? 0) = true).
    { destruct Hrv as [Hr|Hv].
      - rewrite Hr. reflexivity.
      - apply Z.eqb_neq in Hv. rewrite Hv. apply orb_true_r. }
    rewrite E. cbn. norm_app. reflexivity.
Qed.


(** C8. An attempt that reaches the loop and whose every turn is idle (the
    request never answers yes, the descriptor is never reported writable)
    runs [maxRetries] turns, which is the 60 s budget divided by the 50 ms
    slice, 1200; it then closes the socket and fails with the message
    "connect timed out after 60 seconds". *)
Theorem idle_attempt_times_out (a : addrinfo) (sockfd0 : Z) (errMsg : string)
    (h : history) (fd : Z) (pro : list event) :
  started P os a h = Some (fd, pro) ->
  idle_until os cancel fd (h ++ pro) (Z.to_nat maxRetries) ->
  maxRetries = (60 * 1000 * 1000) / selectTimeOut /\
  selectTimeOut = 50 * 1000 /\
  maxRetries = 1200 /\
  connectToAddress P os a sockfd0 errMsg cancel h
  = ((false, -1, "connect timed out after 60 seconds"),
     pro ++ idle_rounds fd 1200 ++ [EvClose fd]).
Proof.
  intros Hst Hidle. repeat split.
  rewrite (connectToAddress_started P os cancel a sockfd0 errMsg h fd pro Hst).
  cbv zeta. rewrite await_connection_eq. cbv zeta.
  assert (E : connect_poll os cancel (Z.to_nat maxRetries) fd (-1) errMsg (h ++ pro)
              = (None, idle_rounds fd (Z.to_nat maxRetries))).
  { rewrite <- (Nat.add_0_r (Z.to_nat maxRetries)) at 1.
    rewrite (connect_poll_idle os cancel fd (-1) errMsg _ 0 (h ++ pro) Hidle).
    cbv zeta. cbn [connect_poll ret fst snd]. now rewrite app_nil_r. }
  rewrite E. cbn [fst snd].
  change (Z.to_nat maxRetries) with 1200%nat. reflexivity.
Qed.

End AttemptLoop.

Lemma writable_settles_by_pending_error_witness :
  started linux (sample_os [cand_A] 0 fates) cand_A []
  = Some (3, [EvSocket 2 1 6 3; EvSetsockopt 3 IPPROTO_TCP TCP_NODELAY 1 0;
              EvFcntl 3 F_SETFL O_NONBLOCK 0; EvConnect 3 addr_A 16 (-1)]) /\
  connectToAddress linux (sample_os [cand_A] 0 fates) cand_A 7 "" never_cancelled []
  = ((false, -1, "Connection refused"),
     [EvSocket 2 1 6 3; EvSetsockopt 3 IPPROTO_TCP TCP_NODELAY 1 0;
      EvFcntl 3 F_SETFL O_NONBLOCK 0; EvConnect 3 addr_A 16 (-1);
      EvCancel false; EvSelect 3 50000 true;
      EvGetsockopt 3 SOL_SOCKET SO_ERROR 0 111; EvClose 3]).
Proof.
  split; [reflexivity|].
  refine (proj2 (writable_settles_by_pending_error linux
                   (sample_os [cand_A] 0 fates) never_cancelled cand_A 7 ""
                   [] 3 _ 0 eq_refl _ _ eq_refl eq_refl) _).
  - change (0 < 1200)%nat. lia.
  - intros j Hj. lia.
  - right. vm_compute. discriminate.
Defined.


Lemma idle_attempt_times_out_witness :
  connectToAddress linux (sample_os [cand_C] 0 (fun _ => Silent)) cand_C 7 ""
    never_cancelled []
  = ((false, -1, "connect timed out after 60 seconds"),
     [EvSocket 2 1 6 3; EvSetsockopt 3 IPPROTO_TCP TCP_NODELAY 1 0;
      EvFcntl 3 F_SETFL O_NONBLOCK 0; EvConnect 3 addr_C 16 (-1)]
     ++ idle_rounds 3 1200 ++ [EvClose 3]).
Proof.
  refine (proj2 (proj2 (proj2 (idle_attempt_times_out linux
            (sample_os [cand_C] 0 (fun _ => Silent)) never_cancelled cand_C 7 ""
            [] 3 _ eq_refl _)))).
  intros j Hj. split; reflexivity.
Defined.

(** ** Descriptors: opened, closed, live *)

Lemma live_after_app (L : list Z) (es1 es2 : list event) :
  live_after L (es1 ++ es2) = live_after (live_after L es1) es2.
Proof. apply fold_left_app. Qed.

Lemma live_after_quiet (L : list Z) (es : list event) :
  forallb quiet es = true -> live_after L es = L.
Proof.
  revert L. induction es as [|e es IH]; intros L H; [reflexivity|].
  cbn [forallb] in H. apply andb_prop in H as [He H].
  unfold live_after in *. cbn [fold_left].
  rewrite (IH _ H). destruct e; try reflexivity; discriminate He.
Qed.

Lemma forallb_firstn {A : Type} (p : A -> bool) (k : nat) (l : list A) :
  forallb p l = true -> forallb p (firstn k l) = true.
Proof.
  revert k. induction l as [|x l IH]; intros [|k] H; try reflexivity.
  cbn [forallb firstn] in *. apply andb_prop in H as [Hx H].
  now rewrite Hx, (IH k H).
Qed.

Lemma at_most_one_app (es1 es2 : list event) :
  at_most_one_live es1 -> live_after [] es1 = [] -> at_most_one_live es2 ->
  at_most_one_live (es1 ++ es2).
Proof.
  intros H1 Hend H2 k. rewrite firstn_app, live_after_app.
  destruct (le_lt_dec (List.length es1) k) as [Hle|Hlt].
  - rewrite firstn_all2 by exact Hle. rewrite Hend. apply H2.
  - replace (k - List.length es1)%nat with O by lia. cbn [firstn live_after fold_left].
    apply H1.
Qed.

Lemma at_most_one_snoc_quiet (es : list event) (e : event) :
  at_most_one_live es -> quiet e = true -> at_most_one_live (es ++ [e]).
Proof.
  intros H He k. rewrite firstn_app, live_after_app.
  rewrite (live_after_quiet _ (firstn _ [e])).
  - apply H.
  - apply forallb_firstn. cbn. now rewrite He.
Qed.

(** A descriptor is created, quiet events follow, and it is closed or not. *)
Lemma at_most_one_attempt (e0 : event) (fd : Z) (body closing : list event) :
  live_step [] e0 = [fd] ->
  forallb quiet body = true ->
  closing = [] \/ closing = [EvClose fd] ->
  at_most_one_live (e0 :: body ++ closing).
Proof.
  intros H0 Hq Hclose [|k]; [cbn; lia|].
  cbn [firstn live_after fold_left]. rewrite H0.
  fold (live_after [fd] (firstn k (body ++ closing))).
  rewrite firstn_app, live_after_app.
  rewrite (live_after_quiet _ _ (forallb_firstn quiet k body Hq)).
  destruct Hclose as [->| ->].
  - rewrite firstn_nil. cbn. lia.
  - destruct (k - List.length body)%nat; cbn; [lia|].
    rewrite Z.eqb_refl. rewrite firstn_nil. cbn. lia.
Qed.

Lemma sockets_opened_app (es1 es2 : list event) :
  sockets_opened (es1 ++ es2) = (sockets_opened es1 + sockets_opened es2)%nat.
Proof.
  induction es1 as [|e es1 IH]; [reflexivity|].
  cbn [app sockets_opened]. destruct e; try exact IH.
  destruct (fd <? 0); cbn; now rewrite IH.
Qed.

Lemma sockets_closed_app (es1 es2 : list event) :
  sockets_closed (es1 ++ es2) = (sockets_closed es1 + sockets_closed es2)%nat.
Proof.
  induction es1 as [|e es1 IH]; [reflexivity|].
  cbn [app sockets_closed]. destruct e; try exact IH. cbn. now rewrite IH.
Qed.

Lemma socket_failures_app (es1 es2 : list event) :
  socket_failures (es1 ++ es2) = (socket_failures es1 + socket_failures es2)%nat.
Proof.
  induction es1 as [|e es1 IH]; [reflexivity|].
  cbn [app socket_failures]. destruct e; try exact IH.
  destruct (fd <? 0); cbn; now rewrite IH.
Qed.

Lemma socket_calls_app (es1 es2 : list event) :
  socket_calls (es1 ++ es2) = socket_calls es1 ++ socket_calls es2.
Proof.
  induction es1 as [|e es1 IH]; [reflexivity|].
  cbn [app socket_calls]. destruct e; try exact IH. cbn. now rewrite IH.
Qed.

Lemma quiet_counts (es : list event) :
  forallb quiet es = true ->
  sockets_opened es = O /\ sockets_closed es = O /\ socket_failures es = O /\
  socket_calls es = [].
Proof.
  induction es as [|e es IH]; intros H; [now repeat split|].
  cbn [forallb] in H. apply andb_prop in H as [He H].
  destruct (IH H) as (H1 & H2 & H3 & H4).
  destruct e; try discriminate He; now repeat split.
Qed.

(** ** The shape of one attempt *)

Section AttemptShape.

Variable P : platform.
Variable os : environment.
Variable cancel : CancellationRequest.

(** The loop creates no descriptor, configures nothing, and closes the
    descriptor as its last event exactly when it fails. *)
Lemma await_run_closing (fd sockfd : Z) (errMsg : string) (n : nat)
    (out : attempt_result) (tr : list event) :
  await_run os fd sockfd errMsg n out tr ->
  exists body,
    forallb quiet body = true /\
    forallb (fun e => negb (is_config e)) body = true /\
    ((out = (true, fd, errMsg) /\ tr = body) \/
     (fst (fst out) = false /\ snd (fst out) = sockfd /\
      tr = body ++ [EvClose fd])).
Proof.
  induction 1 as [|n|n out tl Hrun IH|n r Hr|n r v Hrv].
  - exists []. repeat split. right. now repeat split.
  - exists [EvCancel true]. repeat split. right. now repeat split.
  - destruct IH as (body & Hq & Hc & Hcase).
    exists (EvCancel false :: EvSelect fd selectTimeOut false :: body).
    repeat split; [exact Hq|exact Hc|].
    destruct Hcase as [[-> ->]|(Hf & Hs & ->)]; [left|right]; now repeat split.
  - exists [EvCancel false; EvSelect fd selectTimeOut true;
            EvGetsockopt fd SOL_SOCKET SO_ERROR r 0].
    repeat split. left. now split.
  - exists [EvCancel false; EvSelect fd selectTimeOut true;
            EvGetsockopt fd SOL_SOCKET SO_ERROR r v].
    repeat split. right. now repeat split.
Qed.

Lemma configure_quiet (fd : Z) (h : history) :
  forallb quiet (snd (configure P os fd h)) = true.
Proof.
  rewrite configure_eq. cbv zeta. destruct (SO_NOSIGPIPE_defined P); reflexivity.
Qed.

(** One attempt: no socket; or a socket, quiet events, and the close of the
    socket exactly when the attempt fails. *)
Lemma attempt_shape (a : addrinfo) (sockfd0 : Z) (errMsg : string) (h : history) :
  let r := connectToAddress P os a sockfd0 errMsg cancel h in
  let fd := os_socket os h (ai_family a) (ai_socktype a) (ai_protocol a) in
  let e0 := EvSocket (ai_family a) (ai_socktype a) (ai_protocol a) fd in
  (fd < 0 /\ r = ((false, -1, "Cannot create a socket"), [e0])) \/
  (0 <= fd /\
   exists body,
     forallb quiet body = true /\
     ((fst r = (true, fd, errMsg) /\ snd r = e0 :: body) \/
      (fst (fst (fst r)) = false /\ snd (fst (fst r)) = -1 /\
       snd r = e0 :: body ++ [EvClose fd]))).
Proof.
  cbv zeta. rewrite connectToAddress_eq. cbv zeta.
  set (fd := os_socket os h _ _ _).
  destruct (Z.ltb_spec fd 0) as [Hlt|Hge]; [left; now split|].
  right. split; [exact Hge|].
  set (cfg := snd (configure P os fd _)).
  assert (Hcfg : forallb quiet cfg = true) by apply configure_quiet.
  set (rc := os_connect os _ _ _ _).
  destruct ((rc =? -1) && _).
  - exists (cfg ++ [EvConnect fd (ai_addr a) (ai_addrlen a) rc]).
    split; [rewrite forallb_app, Hcfg; reflexivity|].
    right. cbn [fst snd]. repeat split. norm_app. reflexivity.
  - set (h2 := h ++ _).
    pose proof (await_connection_run os cancel fd (-1) errMsg h2) as Hrun.
    cbv zeta in Hrun.
    destruct (await_run_closing _ _ _ _ _ _ Hrun) as (body & Hq & _ & Hcase).
    exists (cfg ++ EvConnect fd (ai_addr a) (ai_addrlen a) rc :: body).
    split; [rewrite forallb_app, Hcfg; exact Hq|].
    cbn [fst snd].
    destruct Hcase as [[-> ->]|(Hf & Hs & ->)]; [left|right].
    + now split.
    + repeat split; [exact Hf|exact Hs|]. norm_app. reflexivity.
Qed.

(** The value [sockfd] holds when the function is called plays no part. *)
Lemma connectToAddress_sockfd_in (a : addrinfo) (s1 s2 : Z) (errMsg : string)
    (h : history) :
  connectToAddress P os a s1 errMsg cancel h
  = connectToAddress P os a s2 errMsg cancel h.
Proof. reflexivity. Qed.

(** What one attempt leaves: result, live descriptors, counts. *)
Lemma attempt_account (a : addrinfo) (sockfd0 : Z) (errMsg : string) (h : history) :
  let r := connectToAddress P os a sockfd0 errMsg cancel h in
  let fd := os_socket os h (ai_family a) (ai_socktype a) (ai_protocol a) in
  at_most_one_live (snd r) /\
  socket_calls (snd r) = [socket_args a] /\
  ((fst (fst (fst r)) = true /\ snd (fst (fst r)) = fd /\ 0 <= fd /\
    snd (fst r) = errMsg /\
    live_after [] (snd r) = [fd] /\
    sockets_opened (snd r) = 1%nat /\ sockets_closed (snd r) = 0%nat /\
    socket_failures (snd r) = 0%nat) \/
   (fst (fst (fst r)) = false /\ snd (fst (fst r)) = -1 /\
    live_after [] (snd r) = [] /\
    sockets_closed (snd r) = sockets_opened (snd r) /\
    (sockets_opened (snd r) + socket_failures (snd r) = 1)%nat)).
Proof.
  cbv zeta. pose proof (attempt_shape a sockfd0 errMsg h) as Hshape.
  cbv zeta in Hshape.
  set (fd := os_socket os h (ai_family a) (ai_socktype a) (ai_protocol a)) in *.
  destruct Hshape as [[Hlt ->]|(Hge & body & Hq & Hcase)].
  - apply Z.ltb_lt in Hlt. cbn [fst snd]. split; [|split].
    + intros [|k]; cbn; [lia|]. rewrite Hlt, firstn_nil. cbn. lia.
    + reflexivity.
    + right. cbn. rewrite Hlt. now repeat split.
  - assert (Hnlt : (fd <? 0) = false) by (apply Z.ltb_ge; exact Hge).
    destruct (quiet_counts body Hq) as (Qo & Qc & Qf & Qs).
    destruct Hcase as [[Hr Hs]|(Hf & Hsock & Hs)]; rewrite Hs.
    + split; [|split].
      * rewrite <- (app_nil_r body).
        apply (at_most_one_attempt _ fd);
          [cbn; now rewrite Hnlt|exact Hq|now left].
      * cbn [socket_calls]. now rewrite Qs.
      * left. rewrite Hr. cbn [fst snd].
        repeat split; try assumption.
        -- cbn [live_after fold_left live_step]. rewrite Hnlt.
           exact (live_after_quiet _ _ Hq).
        -- cbn [sockets_opened]. now rewrite Hnlt, Qo.
        -- cbn [socket_failures]. now rewrite Hnlt.
    + split; [|split].
      * apply (at_most_one_attempt _ fd);
          [cbn; now rewrite Hnlt|exact Hq|now right].
      * cbn [socket_calls]. rewrite socket_calls_app, Qs. reflexivity.
      * right. repeat split; try assumption.
        -- cbn [live_after fold_left live_step]. rewrite Hnlt.
           fold (live_after [fd] (body ++ [EvClose fd])).
           rewrite live_after_app, (live_after_quiet _ _ Hq).
           cbn. now rewrite Z.eqb_refl.
        -- cbn [sockets_opened sockets_closed]. rewrite Hnlt.
           rewrite sockets_opened_app, sockets_closed_app, Qo, Qc. reflexivity.
        -- cbn [sockets_opened socket_failures]. rewrite Hnlt.
           rewrite sockets_opened_app, socket_failures_app, Qo, Qf. reflexivity.
Qed.

End AttemptShape.

(** ** The failover loop *)

Section Failover.

Variable P : platform.
Variable os : environment.
Variable cancel : CancellationRequest.

Lemma failed_attempt_sockfd (a : addrinfo) (sockfd0 : Z) (errMsg : string)
    (h : history) (s : Z) (m : string) (es : list event) :
  connectToAddress P os a sockfd0 errMsg cancel h = ((false, s, m), es) ->
  s = -1.
Proof.
  intros E. pose proof (attempt_account P os cancel a sockfd0 errMsg h) as H.
  cbv zeta in H. rewrite E in H. cbn [fst snd] in H.
  destruct H as (_ & _ & [(Ht & _)|(_ & Hs & _)]); [discriminate Ht|exact Hs].
Qed.

(** Every attempt fails: the loop goes through the whole list. *)
Lemma loop_all_fail (l : list addrinfo) (errMsg : string) (h : history)
    (m : string) (es : list event) :
  attempts_fail P os cancel l errMsg h m es ->
  connect_loop P os l false (-1) errMsg cancel h = ((false, -1, m), es).
Proof.
  induction 1 as [errMsg h|a l errMsg h s m es m' es' E Hrest IH].
  - reflexivity.
  - rewrite connect_loop_cons. cbv zeta. rewrite E. cbn [fst snd].
    rewrite (failed_attempt_sockfd _ _ _ _ _ _ _ E), IH. reflexivity.
Qed.

(** The attempts before one that succeeds fail: the loop stops at that one. *)
Lemma loop_first_success (pre : list addrinfo) (a : addrinfo)
    (post : list addrinfo) (errMsg : string) (h : history) (m1 : string)
    (es1 : list event) (fd : Z) (m : string) (es : list event) :
  attempts_fail P os cancel pre errMsg h m1 es1 ->
  connectToAddress P os a (-1) m1 cancel (h ++ es1) = ((true, fd, m), es) ->
  connect_loop P os (pre ++ a :: post) false (-1) errMsg cancel h
  = ((true, fd, m), es1 ++ es).
Proof.
  induction 1 as [errMsg h|a' l errMsg h s m0 es0 m' es' E Hrest IH]; intros Ha.
  - rewrite app_nil_r in Ha. cbn [app]. rewrite connect_loop_cons. cbv zeta.
    now rewrite Ha.
  - cbn [app]. rewrite connect_loop_cons. cbv zeta. rewrite E. cbn [fst snd].
    rewrite (failed_attempt_sockfd _ _ _ _ _ _ _ E).
    rewrite app_assoc in Ha. rewrite (IH Ha). cbn [fst snd].
    now rewrite app_assoc.
Qed.

(** One or the other: every attempt fails, or there is a first that succeeds. *)
Lemma loop_cases (l : list addrinfo) (errMsg : string) (h : history) :
  (exists m es, attempts_fail P os cancel l errMsg h m es) \/
  (exists pre a post m1 es1 fd m es,
     l = pre ++ a :: post /\
     attempts_fail P os cancel pre errMsg h m1 es1 /\
     connectToAddress P os a (-1) m1 cancel (h ++ es1) = ((true, fd, m), es)).
Proof.
  revert errMsg h. induction l as [|a l IH]; intros errMsg h.
  - left. exists errMsg, []. constructor.
  - destruct (connectToAddress P os a (-1) errMsg cancel h)
      as [[[b s] m] es] eqn:E.
    destruct b.
    + right. exists [], a, l, errMsg, [], s, m, es.
      repeat split; [constructor|]. now rewrite app_nil_r.
    + destruct (IH m (h ++ es))
        as [(m' & es' & Hall)|(pre & a' & post & m1 & es1 & fd & m' & es' & -> & Hpre & Ha)].
      * left. exists m', (es ++ es'). econstructor; eassumption.
      * right. exists (a :: pre), a', post, m1, (es ++ es1), fd, m', es'.
        repeat split.
        -- econstructor; eassumption.
        -- now rewrite app_assoc.
Qed.

(** A last failing attempt added to failing attempts. *)
Lemma attempts_fail_snoc (pre : list addrinfo) (a : addrinfo) (errMsg : string)
    (h : history) (m1 : string) (es1 : list event) (s : Z) (m : string)
    (es : list event) :
  attempts_fail P os cancel pre errMsg h m1 es1 ->
  connectToAddress P os a (-1) m1 cancel (h ++ es1) = ((false, s, m), es) ->
  attempts_fail P os cancel (pre ++ [a]) errMsg h m (es1 ++ es).
Proof.
  induction 1 as [errMsg h|a' l errMsg h s0 m0 es0 m' es' E Hrest IH]; intros Ha.
  - rewrite app_nil_r in Ha. cbn [app]. rewrite <- (app_nil_r es).
    econstructor; [eassumption|constructor].
  - cbn [app]. rewrite <- app_assoc. econstructor; [eassumption|].
    apply IH. now rewrite <- app_assoc.
Qed.

(** Failing attempts leave nothing open; their sockets are counted. *)
Lemma attempts_fail_account (l : list addrinfo) (errMsg : string) (h : history)
    (m : string) (es : list event) :
  attempts_fail P os cancel l errMsg h m es ->
  at_most_one_live es /\
  live_after [] es = [] /\
  socket_calls es = map socket_args l /\
  sockets_closed es = sockets_opened es /\
  (sockets_opened es + socket_failures es = List.length l)%nat.
Proof.
  induction 1 as [errMsg h|a l errMsg h s m es m' es' E Hrest IH].
  - repeat split. intros k. rewrite firstn_nil. cbn. lia.
  - destruct IH as (I1 & I2 & I3 & I4 & I5).
    pose proof (attempt_account P os cancel a (-1) errMsg h) as H.
    cbv zeta in H. rewrite E in H. cbn [fst snd] in H.
    destruct H as (A1 & A2 & [(Ht & _)|(_ & _ & A3 & A4 & A5)]);
      [discriminate Ht|].
    repeat split.
    + now apply at_most_one_app.
    + now rewrite live_after_app, A3.
    + rewrite socket_calls_app, A2, I3. reflexivity.
    + rewrite sockets_closed_app, sockets_opened_app. lia.
    + rewrite sockets_opened_app, socket_failures_app. cbn [List.length]. lia.
Qed.

End Failover.

(** ** The whole call *)

Section Connect.

Variable P : platform.
Variable os : environment.
Variable cancel : CancellationRequest.

(** Failing attempts are passed: the loop goes on with what follows them. *)
Lemma loop_after_failures (pre l : list addrinfo) (errMsg : string)
    (h : history) (m1 : string) (es1 : list event) :
  attempts_fail P os cancel pre errMsg h m1 es1 ->
  connect_loop P os (pre ++ l) false (-1) errMsg cancel h =
  let r := connect_loop P os l false (-1) m1 cancel (h ++ es1) in
  (fst r, es1 ++ snd r).
Proof.
  induction 1 as [errMsg h|a' l' errMsg h s m0 es0 m' es' E Hrest IH].
  - cbn [app]. rewrite app_nil_r. cbv zeta.
    now destruct (connect_loop P os l false (-1) errMsg cancel h).
  - cbn [app]. rewrite connect_loop_cons. cbv zeta. rewrite E. cbn [fst snd].
    rewrite (failed_attempt_sockfd P os cancel _ _ _ _ _ _ _ E), IH. cbv zeta.
    cbn [fst snd]. now rewrite !app_assoc.
Qed.

(** Every attempt starts with the [socket] call for its candidate. *)
Lemma attempt_first_event (a : addrinfo) (sockfd0 : Z) (errMsg : string)
    (h : history) :
  exists rest,
    snd (connectToAddress P os a sockfd0 errMsg cancel h)
    = EvSocket (ai_family a) (ai_socktype a) (ai_protocol a)
        (os_socket os h (ai_family a) (ai_socktype a) (ai_protocol a)) :: rest.
Proof.
  rewrite connectToAddress_eq. cbv zeta.
  destruct (_ <? 0); [now exists []|].
  destruct ((_ =? -1) && _); eexists; reflexivity.
Qed.

(** The call when resolution gave candidates. *)
Lemma connect_resolved (hostname : string) (port : Z) (errMsg : string)
    (h : history) :
  let d := os_resolve os h hostname port errMsg cancel in
  let e := EvResolve hostname port (fst d) in
  fst d <> [] ->
  connect P os hostname port errMsg cancel h =
  let r := connect_loop P os (fst d) false (-1) (snd d) cancel (h ++ [e]) in
  ((snd (fst (fst r)), snd (fst r)), e :: snd r ++ [EvFreeaddrinfo (fst d)]).
Proof.
  cbv zeta. intros Hne. rewrite connect_eq. cbv zeta.
  destruct (fst (os_resolve os h hostname port errMsg cancel)); [now elim Hne|].
  reflexivity.
Qed.

(** The call when a first attempt succeeds after failing ones. *)
Lemma connect_run_success (hostname : string) (port : Z) (errMsg : string)
    (h : history) (pre : list addrinfo) (a : addrinfo) (post : list addrinfo)
    (m1 : string) (es1 : list event) (fd : Z) (m : string) (es : list event) :
  let d := os_resolve os h hostname port errMsg cancel in
  let e := EvResolve hostname port (fst d) in
  fst d = pre ++ a :: post ->
  attempts_fail P os cancel pre (snd d) (h ++ [e]) m1 es1 ->
  connectToAddress P os a (-1) m1 cancel ((h ++ [e]) ++ es1)
  = ((true, fd, m), es) ->
  connect P os hostname port errMsg cancel h
  = ((fd, m), e :: es1 ++ es ++ [EvFreeaddrinfo (fst d)]).
Proof.
  cbv zeta. intros Hd Hpre Ha.
  rewrite connect_resolved by (rewrite Hd; now destruct pre).
  cbv zeta.
  pose proof (loop_first_success P os cancel pre a post _ _ _ _ _ _ _ Hpre Ha)
    as Hloop.
  rewrite <- Hd in Hloop. rewrite Hloop.
  cbn [fst snd]. norm_app. reflexivity.
Qed.

(** The call when every attempt fails. *)
Lemma connect_run_failure (hostname : string) (port : Z) (errMsg : string)
    (h : history) (m : string) (es : list event) :
  let d := os_resolve os h hostname port errMsg cancel in
  let e := EvResolve hostname port (fst d) in
  fst d <> [] ->
  attempts_fail P os cancel (fst d) (snd d) (h ++ [e]) m es ->
  connect P os hostname port errMsg cancel h
  = ((-1, m), e :: es ++ [EvFreeaddrinfo (fst d)]).
Proof.
  cbv zeta. intros Hne Hall.
  rewrite connect_resolved by exact Hne.
  cbv zeta. rewrite (loop_all_fail P os cancel _ _ _ _ _ Hall). reflexivity.
Qed.

(** The call when resolution gave nothing. *)
Lemma connect_run_unresolved (hostname : string) (port : Z) (errMsg : string)
    (h : history) :
  let d := os_resolve os h hostname port errMsg cancel in
  fst d = [] ->
  connect P os hostname port errMsg cancel h
  = ((-1, snd d), [EvResolve hostname port []]).
Proof.
  cbv zeta. intros Hd. rewrite connect_eq. cbv zeta. now rewrite Hd.
Qed.

(** C4. When the resolved list is [pre ++ a :: post], the attempts on the
    candidates of [pre], made in turn, fail, and the attempt on [a] then
    succeeds with descriptor [fd], the call returns [fd], which is not
    negative; its events are those of the failed attempts in the order of
    the list, then those of the attempt on [a], then [freeaddrinfo]; and
    its [socket] calls are, in order, one for each candidate of [pre] and
    one for [a]: none for a candidate of [post]. *)
Theorem connect_first_reachable (hostname : string) (port : Z)
    (errMsg : string) (h : history) (pre : list addrinfo) (a : addrinfo)
    (post : list addrinfo) (m1 : string) (es1 : list event) (fd : Z)
    (m : string) (es : list event) :
  let d := os_resolve os h hostname port errMsg cancel in
  let e := EvResolve hostname port (fst d) in
  fst d = pre ++ a :: post ->
  attempts_fail P os cancel pre (snd d) (h ++ [e]) m1 es1 ->
  connectToAddress P os a (-1) m1 cancel (h ++ e :: es1) = ((true, fd, m), es) ->
  let r := connect P os hostname port errMsg cancel h in
  r = ((fd, m), e :: es1 ++ es ++ [EvFreeaddrinfo (fst d)]) /\
  0 <= fd /\
  socket_calls (snd r) = map socket_args (pre ++ [a]) /\
  sockets_opened (snd r) = S (sockets_closed (snd r)).
Proof.
  cbv zeta. intros Hd Hpre Ha.
  assert (Ha' : connectToAddress P os a (-1) m1 cancel
                  ((h ++ [EvResolve hostname port
                            (fst (os_resolve os h hostname port errMsg cancel))])
                   ++ es1) = ((true, fd, m), es))
    by (norm_app; exact Ha).
  assert (E : connect P os hostname port errMsg cancel h
              = ((fd, m), EvResolve hostname port
                            (fst (os_resolve os h hostname port errMsg cancel))
                          :: es1 ++ es
                          ++ [EvFreeaddrinfo
                                (fst (os_resolve os h hostname port errMsg cancel))])).
  { exact (connect_run_success hostname port errMsg h pre a post m1 es1 fd m es
             Hd Hpre Ha'). }
  rewrite E. cbn [fst snd].
  destruct (attempts_fail_account P os cancel _ _ _ _ _ Hpre)
    as (_ & _ & Hcalls & Hclosed & _).
  pose proof (attempt_account P os cancel a (-1) m1
                ((h ++ [EvResolve hostname port
                          (fst (os_resolve os h hostname port errMsg cancel))])
                 ++ es1)) as Hacc.
  cbv zeta in Hacc. rewrite Ha' in Hacc. cbn [fst snd] in Hacc.
  destruct Hacc as (_ & Hcall & [(_ & Hfd & Hge & _ & _ & Ho & Hc & _)|(Hf & _)]);
    [|discriminate Hf].
  repeat split.
  - rewrite Hfd. exact Hge.
  - cbn [socket_calls]. rewrite !socket_calls_app, Hcalls, Hcall, map_app.
    reflexivity.
  - cbn [sockets_opened sockets_closed].
    rewrite !sockets_opened_app, !sockets_closed_app, Ho, Hc, Hclosed.
    cbn. lia.
Qed.

(** C5, as the program has it.  When every attempt fails, the last one on
    [a] with message [m], the call returns -1 with [m] as its message; every
    socket that was opened has been closed; and the sockets opened are as
    many as the candidates less those for which [socket] gave no descriptor. *)
Theorem connect_all_unreachable (hostname : string) (port : Z)
    (errMsg : string) (h : history) (pre : list addrinfo) (a : addrinfo)
    (m1 : string) (es1 : list event) (s : Z) (m : string) (es : list event) :
  let d := os_resolve os h hostname port errMsg cancel in
  let e := EvResolve hostname port (fst d) in
  fst d = pre ++ [a] ->
  attempts_fail P os cancel pre (snd d) (h ++ [e]) m1 es1 ->
  connectToAddress P os a (-1) m1 cancel (h ++ e :: es1) = ((false, s, m), es) ->
  let r := connect P os hostname port errMsg cancel h in
  r = ((-1, m), e :: es1 ++ es ++ [EvFreeaddrinfo (fst d)]) /\
  sockets_closed (snd r) = sockets_opened (snd r) /\
  (sockets_opened (snd r) + socket_failures (snd r) = List.length (fst d))%nat /\
  live_after [] (snd r) = [].
Proof.
  cbv zeta. intros Hd Hpre Ha.
  assert (Ha' : connectToAddress P os a (-1) m1 cancel
                  ((h ++ [EvResolve hostname port
                            (fst (os_resolve os h hostname port errMsg cancel))])
                   ++ es1) = ((false, s, m), es))
    by (norm_app; exact Ha).
  pose proof (attempts_fail_snoc P os cancel _ _ _ _ _ _ _ _ _ Hpre Ha') as Hall.
  rewrite <- Hd in Hall.
  assert (E : connect P os hostname port errMsg cancel h
              = ((-1, m), EvResolve hostname port
                            (fst (os_resolve os h hostname port errMsg cancel))
                          :: es1 ++ es
                          ++ [EvFreeaddrinfo
                                (fst (os_resolve os h hostname port errMsg cancel))])).
  { rewrite (connect_run_failure hostname port errMsg h m (es1 ++ es));
      [norm_app; reflexivity| |exact Hall].
    rewrite Hd. now destruct pre. }
  rewrite E. cbn [fst snd].
  destruct (attempts_fail_account P os cancel _ _ _ _ _ Hall)
    as (_ & Hlive & _ & Hclosed & Hcount).
  rewrite app_assoc.
  repeat split.
  - cbn [sockets_closed sockets_opened].
    rewrite sockets_closed_app, sockets_opened_app, Hclosed. reflexivity.
  - cbn [sockets_opened socket_failures].
    rewrite sockets_opened_app, socket_failures_app. cbn. lia.
  - cbn [live_after fold_left live_step].
    fold (live_after [] ((es1 ++ es) ++ [EvFreeaddrinfo
            (fst (os_resolve os h hostname port errMsg cancel))])).
    rewrite live_after_app, Hlive. reflexivity.
Qed.

(** The three ways a call can go. *)
Lemma connect_cases (hostname : string) (port : Z) (errMsg : string)
    (h : history) :
  let d := os_resolve os h hostname port errMsg cancel in
  let e := EvResolve hostname port (fst d) in
  let r := connect P os hostname port errMsg cancel h in
  (fst d = [] /\ r = ((-1, snd d), [EvResolve hostname port []])) \/
  (fst d <> [] /\
   exists m es,
     attempts_fail P os cancel (fst d) (snd d) (h ++ [e]) m es /\
     r = ((-1, m), e :: es ++ [EvFreeaddrinfo (fst d)])) \/
  (exists pre a post m1 es1 fd m es,
     fst d = pre ++ a :: post /\
     attempts_fail P os cancel pre (snd d) (h ++ [e]) m1 es1 /\
     connectToAddress P os a (-1) m1 cancel ((h ++ [e]) ++ es1)
     = ((true, fd, m), es) /\
     r = ((fd, m), e :: es1 ++ es ++ [EvFreeaddrinfo (fst d)])).
Proof.
  cbv zeta.
  destruct (fst (os_resolve os h hostname port errMsg cancel)) as [|a0 l0] eqn:Hd.
  - left. split; [reflexivity|]. now apply connect_run_unresolved.
  - right. rewrite <- Hd.
    destruct (loop_cases P os cancel
                (fst (os_resolve os h hostname port errMsg cancel))
                (snd (os_resolve os h hostname port errMsg cancel))
                (h ++ [EvResolve hostname port
                         (fst (os_resolve os h hostname port errMsg cancel))]))
      as [(m & es & Hall)|(pre & a & post & m1 & es1 & fd & m & es & Hsplit & Hpre & Ha)].
    + left. split; [rewrite Hd; discriminate|].
      exists m, es. split; [exact Hall|].
      apply connect_run_failure; [rewrite Hd; discriminate|exact Hall].
    + right. exists pre, a, post, m1, es1, fd, m, es.
      repeat split; try assumption.
      now apply (connect_run_success hostname port errMsg h pre a post m1 es1).
Qed.

Lemma successful_attempt (a : addrinfo) (sockfd0 : Z) (errMsg : string)
    (h : history) (fd : Z) (m : string) (es : list event) :
  connectToAddress P os a sockfd0 errMsg cancel h = ((true, fd, m), es) ->
  0 <= fd /\
  fd = os_socket os h (ai_family a) (ai_socktype a) (ai_protocol a) /\
  at_most_one_live es /\ live_after [] es = [fd].
Proof.
  intros E. pose proof (attempt_account P os cancel a sockfd0 errMsg h) as H.
  cbv zeta in H. rewrite E in H. cbn [fst snd] in H.
  destruct H as (H1 & _ & [(_ & Hfd & Hge & _ & Hlive & _)|(Hf & _)]);
    [|discriminate Hf].
  rewrite <- Hfd in Hge, Hlive. now repeat split.
Qed.

(** C9. During a call at most one descriptor is live at any moment: after
    every prefix of the events of the call, the descriptors opened and not
    yet closed are at most one.  At the end none is live when the call
    fails, and the returned one alone when it succeeds.  The same holds of
    each attempt: an attempt that fails leaves no descriptor open, whichever
    way it fails. *)
Theorem at_most_one_socket_live (hostname : string) (port : Z)
    (errMsg : string) (h : history) :
  let r := connect P os hostname port errMsg cancel h in
  (forall k : nat, (List.length (live_after [] (firstn k (snd r))) <= 1)%nat) /\
  live_after [] (snd r) = (if fst (fst r) =? -1 then [] else [fst (fst r)]) /\
  (forall (a : addrinfo) (sockfd0 : Z) (errMsg' : string) (h' : history),
     let t := connectToAddress P os a sockfd0 errMsg' cancel h' in
     (forall k : nat, (List.length (live_after [] (firstn k (snd t))) <= 1)%nat) /\
     live_after [] (snd t)
     = (if fst (fst (fst t)) then [snd (fst (fst t))] else [])).
Proof.
  cbv zeta. split; [|split].
  - destruct (connect_cases hostname port errMsg h)
      as [[_ ->]|[(_ & m & es & Hall & ->)
                 |(pre & a & post & m1 & es1 & fd & m & es & _ & Hpre & Ha & ->)]];
      cbn [fst snd].
    + intros [|k]; cbn; [lia|]. rewrite firstn_nil. cbn. lia.
    + destruct (attempts_fail_account P os cancel _ _ _ _ _ Hall)
        as (H1 & Hlive & _).
      apply (at_most_one_app [_]).
      * intros [|k]; cbn; [lia|]. rewrite firstn_nil. cbn. lia.
      * reflexivity.
      * now apply at_most_one_snoc_quiet.
    + destruct (attempts_fail_account P os cancel _ _ _ _ _ Hpre)
        as (H1 & Hlive & _).
      destruct (successful_attempt _ _ _ _ _ _ _ Ha) as (_ & _ & H2 & _).
      apply (at_most_one_app [_]).
      * intros [|k]; cbn; [lia|]. rewrite firstn_nil. cbn. lia.
      * reflexivity.
      * rewrite app_assoc. apply at_most_one_snoc_quiet; [|reflexivity].
        now apply at_most_one_app.
  - destruct (connect_cases hostname port errMsg h)
      as [[_ ->]|[(_ & m & es & Hall & ->)
                 |(pre & a & post & m1 & es1 & fd & m & es & _ & Hpre & Ha & ->)]];
      cbn [fst snd].
    + reflexivity.
    + destruct (attempts_fail_account P os cancel _ _ _ _ _ Hall)
        as (_ & Hlive & _).
      change (live_after [] (es ++ [EvFreeaddrinfo
                (fst (os_resolve os h hostname port errMsg cancel))]) = []).
      now rewrite live_after_app, Hlive.
    + destruct (attempts_fail_account P os cancel _ _ _ _ _ Hpre)
        as (_ & Hlive & _).
      destruct (successful_attempt _ _ _ _ _ _ _ Ha) as (Hge & _ & _ & Hl2).
      replace (fd =? -1) with false by (symmetry; apply Z.eqb_neq; lia).
      change (live_after [] (es1 ++ es ++ [EvFreeaddrinfo
                (fst (os_resolve os h hostname port errMsg cancel))]) = [fd]).
      now rewrite !live_after_app, Hlive, Hl2.
  - intros a sockfd0 errMsg' h'.
    pose proof (attempt_account P os cancel a sockfd0 errMsg' h') as H.
    cbv zeta in H.
    destruct H as (H1 & _ & [(Ht & Hfd & _ & _ & Hlive & _)|(Hf & _ & Hlive & _)]).
    + split; [exact H1|]. now rewrite Ht, Hfd.
    + split; [exact H1|]. now rewrite Hf.
Qed.

(** C1, as the program has it.  An attempt that ends cancelled or timed out
    is a failed attempt like any other: the loop over the candidates stops
    only at a success.  When candidates remain, the call goes on and makes
    the [socket] call for the next one right after the events of the failed
    attempt; when none remains, the call returns -1 with the message of
    that attempt. *)
Theorem cancelled_or_timed_out_moves_on (hostname : string) (port : Z)
    (errMsg : string) (h : history) (pre : list addrinfo) (a : addrinfo)
    (rest : list addrinfo) (m1 : string) (es1 : list event) (s : Z)
    (m : string) (es : list event) :
  let d := os_resolve os h hostname port errMsg cancel in
  let e := EvResolve hostname port (fst d) in
  fst d = pre ++ a :: rest ->
  attempts_fail P os cancel pre (snd d) (h ++ [e]) m1 es1 ->
  connectToAddress P os a (-1) m1 cancel (h ++ e :: es1) = ((false, s, m), es) ->
  m = "Cancelled" \/ m = "connect timed out after 60 seconds" ->
  let r := connect P os hostname port errMsg cancel h in
  match rest with
  | [] => r = ((-1, m), e :: es1 ++ es ++ [EvFreeaddrinfo (fst d)])
  | next :: _ =>
      exists tl,
        snd r = e :: es1 ++ es
                ++ EvSocket (ai_family next) (ai_socktype next) (ai_protocol next)
                     (os_socket os (h ++ e :: es1 ++ es) (ai_family next)
                        (ai_socktype next) (ai_protocol next)) :: tl
  end.
Proof.
  cbv zeta. intros Hd Hpre Ha _.
  set (e := EvResolve hostname port (fst (os_resolve os h hostname port errMsg cancel)))
    in *.
  assert (Ha' : connectToAddress P os a (-1) m1 cancel ((h ++ [e]) ++ es1)
                = ((false, s, m), es)) by (norm_app; exact Ha).
  assert (Hne : fst (os_resolve os h hostname port errMsg cancel) <> [])
    by (rewrite Hd; now destruct pre).
  destruct rest as [|next post].
  - pose proof (attempts_fail_snoc P os cancel _ _ _ _ _ _ _ _ _ Hpre Ha') as Hall.
    rewrite <- Hd in Hall.
    rewrite (connect_run_failure hostname port errMsg h m (es1 ++ es) Hne Hall).
    fold e. norm_app. reflexivity.
  - rewrite (connect_resolved hostname port errMsg h Hne). cbv zeta. fold e.
    cbn [snd]. rewrite Hd.
    rewrite (loop_after_failures pre (a :: next :: post) _ _ _ _ Hpre).
    cbv zeta. cbn [snd]. rewrite connect_loop_cons. cbv zeta.
    rewrite Ha'. cbn [fst snd].
    rewrite (failed_attempt_sockfd P os cancel _ _ _ _ _ _ _ Ha').
    rewrite connect_loop_cons. cbv zeta.
    destruct (attempt_first_event next (-1) m (((h ++ [e]) ++ es1) ++ es))
      as (tl & Htl).
    replace (((h ++ [e]) ++ es1) ++ es) with (h ++ e :: es1 ++ es) in *
      by (norm_app; reflexivity).
    destruct (fst (fst (fst (connectToAddress P os next (-1) m cancel _))));
      cbn [snd]; rewrite Htl; eexists; norm_app; reflexivity.
Qed.

End Connect.

(** ** Configuration within an attempt *)

Section Configuration.

Variable P : platform.
Variable os : environment.
Variable cancel : CancellationRequest.

(** C2, as the program has it.  [configure] does not look at what [fcntl]
    answered when asked for non-blocking mode, and returns nothing: once the
    socket is created, whatever the answer [x], the attempt issues the
    [connect] call right after the configuration, and enters the loop (its
    next event is the first poll of the cancellation request) unless
    [connect] fails at once with an error other than [EINPROGRESS]. *)
Theorem nonblocking_result_ignored (a : addrinfo) (sockfd0 : Z)
    (errMsg : string) (h : history) :
  let r := connectToAddress P os a sockfd0 errMsg cancel h in
  let fd := os_socket os h (ai_family a) (ai_socktype a) (ai_protocol a) in
  let e0 := EvSocket (ai_family a) (ai_socktype a) (ai_protocol a) fd in
  let e1 := EvSetsockopt fd IPPROTO_TCP TCP_NODELAY 1
              (os_setsockopt os (h ++ [e0]) fd IPPROTO_TCP TCP_NODELAY 1) in
  let x := os_fcntl os (h ++ [e0; e1]) fd F_SETFL O_NONBLOCK in
  let cfg := snd (configure P os fd (h ++ [e0])) in
  let rc := os_connect os (h ++ e0 :: cfg) fd (ai_addr a) (ai_addrlen a) in
  let ec := EvConnect fd (ai_addr a) (ai_addrlen a) rc in
  0 <= fd ->
  (exists cfg', cfg = e1 :: EvFcntl fd F_SETFL O_NONBLOCK x :: cfg') /\
  (exists rest, snd r = e0 :: cfg ++ ec :: rest) /\
  (~ (rc = -1 /\ os_errno os (h ++ e0 :: cfg ++ [ec]) <> EINPROGRESS P) ->
   exists rest,
     snd r = e0 :: cfg ++ ec
             :: EvCancel (cancel (h ++ e0 :: cfg ++ [ec])) :: rest).
Proof.
  cbv zeta. intros Hge. split; [|split].
  - rewrite configure_eq. cbv zeta. norm_app. eexists. reflexivity.
  - rewrite connectToAddress_eq. cbv zeta.
    replace (_ <? 0) with false by (symmetry; apply Z.ltb_ge; exact Hge).
    destruct ((_ =? -1) && _); eexists; reflexivity.
  - intros Hok. rewrite connectToAddress_eq. cbv zeta.
    replace (_ <? 0) with false by (symmetry; apply Z.ltb_ge; exact Hge).
    set (fd := os_socket os h _ _ _) in *.
    set (cfg := snd (configure P os fd _)) in *.
    set (rc := os_connect os _ _ _ _) in *.
    set (h2 := h ++ _ :: cfg ++ [_]) in *.
    assert (E : (rc =? -1) && negb (os_errno os h2 =? EINPROGRESS P) = false).
    { destruct (Z.eqb_spec rc (-1)) as [Hrc|Hrc]; [|reflexivity].
      destruct (Z.eqb_spec (os_errno os h2) (EINPROGRESS P)) as [He|He];
        [reflexivity|]. elim Hok. now split. }
    rewrite E. cbn [snd]. rewrite await_connection_eq. cbv zeta.
    change (Z.to_nat maxRetries) with (S 1199). rewrite connect_poll_S.
    destruct (cancel h2); [eexists; reflexivity|].
    destruct (os_select os _ fd selectTimeOut).
    + cbv zeta. destruct ((_ =? -1) || _); eexists; reflexivity.
    + cbv zeta. cbn [fst snd].
      destruct (fst (connect_poll _ _ _ _ _ _ _)); eexists; reflexivity.
Qed.

(** C3, as the program has it.  An attempt applies the whole of [configure]
    (disable Nagle, non-blocking mode and, where [SO_NOSIGPIPE] is defined,
    no-SIGPIPE) right after it has created the socket and before it issues
    the [connect] call; after the [connect] call it configures nothing,
    whether the attempt succeeds or not. *)
Theorem configured_before_connect (a : addrinfo) (sockfd0 : Z)
    (errMsg : string) (h : history) :
  let r := connectToAddress P os a sockfd0 errMsg cancel h in
  let fd := os_socket os h (ai_family a) (ai_socktype a) (ai_protocol a) in
  let e0 := EvSocket (ai_family a) (ai_socktype a) (ai_protocol a) fd in
  let cfg := snd (configure P os fd (h ++ [e0])) in
  0 <= fd ->
  (exists x1 x2 x3,
     cfg = EvSetsockopt fd IPPROTO_TCP TCP_NODELAY 1 x1
           :: EvFcntl fd F_SETFL O_NONBLOCK x2
           :: (if SO_NOSIGPIPE_defined P
               then [EvSetsockopt fd SOL_SOCKET SO_NOSIGPIPE 1 x3] else [])) /\
  (exists rc rest,
     snd r = e0 :: cfg ++ EvConnect fd (ai_addr a) (ai_addrlen a) rc :: rest /\
     forallb (fun e => negb (is_config e)) rest = true).
Proof.
  cbv zeta. intros Hge. split.
  - rewrite configure_eq. cbv zeta. do 3 eexists. reflexivity.
  - rewrite connectToAddress_eq. cbv zeta.
    replace (_ <? 0) with false by (symmetry; apply Z.ltb_ge; exact Hge).
    set (fd := os_socket os h _ _ _) in *.
    set (cfg := snd (configure P os fd _)) in *.
    set (rc := os_connect os _ _ _ _) in *.
    destruct ((rc =? -1) && _).
    + exists rc, [EvClose fd]. now split.
    + set (h2 := h ++ _).
      pose proof (await_connection_run os cancel fd (-1) errMsg h2) as Hrun.
      cbv zeta in Hrun.
      destruct (await_run_closing os _ _ _ _ _ _ Hrun) as (body & _ & Hc & Hcase).
      exists rc, (snd (await_connection os cancel fd (-1) errMsg h2)).
      split; [reflexivity|].
      destruct Hcase as [[_ ->]|(_ & _ & ->)]; [exact Hc|].
      now rewrite forallb_app, Hc.
Qed.

End Configuration.


(** ** The statements on sample runs *)

(** Against C1 as stated.  Two candidates and a cancellation request that
    stays on: the first attempt ends cancelled, and the call still opens a
    socket for the second candidate and starts a connection to it. *)
Lemma short_circuit_counterexample :
  ~ short_circuit_claim linux (sample_os [cand_A; cand_B] 0 fates)
      always_cancelled "host" 80 "" [].
Proof.
  intros H.
  specialize (H [] cand_A [cand_B] "" [] (-1) "Cancelled"
                (sample_cancelled addr_A) eq_refl (af_nil _ _ _ _ _) eq_refl
                (or_introl eq_refl)).
  vm_compute in H. discriminate H.
Qed.

Lemma cancelled_or_timed_out_moves_on_witness :
  exists tl,
    snd (connect linux (sample_os [cand_A; cand_B] 0 fates) "host" 80 ""
           always_cancelled [])
    = EvResolve "host" 80 [cand_A; cand_B]
      :: [] ++ sample_cancelled addr_A ++ EvSocket 2 1 6 3 :: tl.
Proof.
  exact (cancelled_or_timed_out_moves_on linux
           (sample_os [cand_A; cand_B] 0 fates) always_cancelled "host" 80 ""
           [] [] cand_A [cand_B] "" [] (-1) "Cancelled"
           (sample_cancelled addr_A) eq_refl (af_nil _ _ _ _ _) eq_refl
           (or_introl eq_refl)).
Defined.

(** Against C2 as stated.  [fcntl] answers -1 and the attempt goes through
    the loop and succeeds. *)
Lemma nonblocking_mandatory_counterexample :
  ~ nonblocking_mandatory_claim linux (sample_os [cand_B] (-1) fates)
      never_cancelled cand_B "" [].
Proof.
  intros H.
  destruct (H [EvSocket 2 1 6 3; EvSetsockopt 3 IPPROTO_TCP TCP_NODELAY 1 0] 3
              [EvConnect 3 addr_B 16 (-1); EvCancel false; EvSelect 3 50000 true;
               EvGetsockopt 3 SOL_SOCKET SO_ERROR 0 0] eq_refl) as [Hf _].
  vm_compute in Hf. discriminate Hf.
Qed.

Lemma nonblocking_result_ignored_witness :
  exists rest,
    snd (connectToAddress linux (sample_os [cand_B] (-1) fates) cand_B 7 ""
           never_cancelled [])
    = [EvSocket 2 1 6 3; EvSetsockopt 3 IPPROTO_TCP TCP_NODELAY 1 0;
       EvFcntl 3 F_SETFL O_NONBLOCK (-1); EvConnect 3 addr_B 16 (-1);
       EvCancel false] ++ rest.
Proof.
  refine (proj2 (proj2 (nonblocking_result_ignored linux
            (sample_os [cand_B] (-1) fates) never_cancelled cand_B 7 "" [] _)) _).
  - vm_compute. discriminate.
  - vm_compute. intros [_ Hne]. now apply Hne.
Defined.

(** Against C3 as stated.  The successful attempt disabled Nagle before
    [connect] and configured nothing after it. *)
Lemma configure_after_success_counterexample :
  ~ configure_after_success_claim linux (sample_os [cand_B] 0 fates)
      never_cancelled cand_B "" [].
Proof.
  intros H.
  destruct (H [EvSocket 2 1 6 3; EvSetsockopt 3 IPPROTO_TCP TCP_NODELAY 1 0;
               EvFcntl 3 F_SETFL O_NONBLOCK 0] 3 (-1)
              [EvCancel false; EvSelect 3 50000 true;
               EvGetsockopt 3 SOL_SOCKET SO_ERROR 0 0] eq_refl) as [Hpre _].
  destruct (Hpre (EvSetsockopt 3 IPPROTO_TCP TCP_NODELAY 1 0)) as [x Hx].
  - right. now left.
  - reflexivity.
  - discriminate Hx.
Qed.

Lemma configured_before_connect_witness :
  exists rc rest,
    snd (connectToAddress linux (sample_os [cand_B] 0 fates) cand_B 7 ""
           never_cancelled [])
    = EvSocket 2 1 6 3
      :: [EvSetsockopt 3 IPPROTO_TCP TCP_NODELAY 1 0;
          EvFcntl 3 F_SETFL O_NONBLOCK 0]
      ++ EvConnect 3 addr_B 16 rc :: rest /\
    forallb (fun e => negb (is_config e)) rest = true.
Proof.
  refine (proj2 (configured_before_connect linux (sample_os [cand_B] 0 fates)
                   never_cancelled cand_B 7 "" [] _)).
  vm_compute. discriminate.
Defined.

Lemma sample_A_refused (res : list addrinfo) :
  attempts_fail linux (sample_os res 0 fates) never_cancelled [cand_A] ""
    [EvResolve "host" 80 res] "Connection refused" (sample_refused addr_A).
Proof.
  rewrite <- (app_nil_r (sample_refused addr_A)).
  econstructor; [reflexivity|constructor].
Qed.

Lemma connect_first_reachable_witness :
  connect linux (sample_os [cand_A; cand_B; cand_C] 0 fates) "host" 80 ""
    never_cancelled []
  = ((3, "Connection refused"),
     EvResolve "host" 80 [cand_A; cand_B; cand_C]
     :: sample_refused addr_A ++ sample_connected addr_B
     ++ [EvFreeaddrinfo [cand_A; cand_B; cand_C]]) /\
  socket_calls
    (snd (connect linux (sample_os [cand_A; cand_B; cand_C] 0 fates) "host" 80 ""
            never_cancelled []))
  = [(2, 1, 6); (2, 1, 6)].
Proof.
  pose proof (connect_first_reachable linux
                (sample_os [cand_A; cand_B; cand_C] 0 fates) never_cancelled
                "host" 80 "" [] [cand_A] cand_B [cand_C] "Connection refused"
                (sample_refused addr_A) 3 "Connection refused"
                (sample_connected addr_B) eq_refl
                (sample_A_refused [cand_A; cand_B; cand_C]) eq_refl)
    as (Hrun & _ & Hcalls & _).
  split; [exact Hrun|exact Hcalls].
Defined.

(** Against C5 as stated.  A is refused and no socket can be created for X:
    every attempt fails, one socket was opened and closed, and the
    candidates are two. *)
Lemma all_fail_counterexample :
  ~ all_fail_claim linux (sample_os [cand_A; cand_X] 0 fates) never_cancelled
      "host" 80 "" [].
Proof.
  intros H.
  destruct (H "Cannot create a socket"
              (sample_refused addr_A ++ [EvSocket 10 1 6 (-1)]))
    as (_ & Hopened & _).
  - econstructor; [reflexivity|].
    rewrite <- (app_nil_r [EvSocket 10 1 6 (-1)]).
    econstructor; [reflexivity|constructor].
  - vm_compute in Hopened. discriminate Hopened.
Qed.

Lemma connect_all_unreachable_witness :
  connect linux (sample_os [cand_A; cand_X] 0 fates) "host" 80 ""
    never_cancelled []
  = ((-1, "Cannot create a socket"),
     EvResolve "host" 80 [cand_A; cand_X]
     :: sample_refused addr_A ++ [EvSocket 10 1 6 (-1)]
     ++ [EvFreeaddrinfo [cand_A; cand_X]]).
Proof.
  exact (proj1 (connect_all_unreachable linux
                  (sample_os [cand_A; cand_X] 0 fates) never_cancelled
                  "host" 80 "" [] [cand_A] cand_X "Connection refused"
                  (sample_refused addr_A) (-1) "Cannot create a socket"
                  [EvSocket 10 1 6 (-1)] eq_refl
                  (sample_A_refused [cand_A; cand_X]) eq_refl)).
Defined.

(** ** Counting the events of a run *)

Ltac measure_simpl :=
  cbn [total select_usec one_if is_select is_cancel_poll is_getsockopt
       is_connect is_config is_resolve_or_free sockets_opened forallb negb
       andb app].

Lemma total_app (w : event -> Z) (es1 es2 : list event) :
  total w (es1 ++ es2) = total w es1 + total w es2.
Proof.
  induction es1 as [|e es1 IH]; [reflexivity|].
  cbn [app total]. rewrite IH. lia.
Qed.

Section Measures.

Variable P : platform.
Variable os : environment.
Variable cancel : CancellationRequest.

(** What the loop and the code after it can emit, [n] turns left. *)
Lemma await_run_measures (fd sockfd : Z) (errMsg : string) (n : nat)
    (out : attempt_result) (tr : list event) :
  await_run os fd sockfd errMsg n out tr ->
  (0 <= total select_usec tr <= Z.of_nat n * 50000) /\
  total (one_if is_select) tr <= Z.of_nat n /\
  total (one_if is_cancel_poll) tr <= Z.of_nat n /\
  total (one_if is_getsockopt) tr <= 1 /\
  total (one_if is_connect) tr = 0 /\
  total (one_if is_config) tr = 0 /\
  sockets_opened tr = O /\
  forallb (fun e => negb (is_resolve_or_free e)) tr = true.
Proof.
  induction 1 as [|n|n out tl Hrun IH|n r Hr|n r v Hrv].
  - measure_simpl. repeat split; lia.
  - measure_simpl. repeat split; lia.
  - destruct IH as (I1 & I2 & I3 & I4 & I5 & I6 & I7 & I8).
    measure_simpl. change selectTimeOut with 50000.
    repeat split; try lia; assumption.
  - measure_simpl. change selectTimeOut with 50000. repeat split; lia.
  - measure_simpl. change selectTimeOut with 50000. repeat split; lia.
Qed.

(** How the loop and the code after it can end. *)
Lemma await_run_outcome (fd sockfd : Z) (errMsg : string) (n : nat)
    (out : attempt_result) (tr : list event) :
  await_run os fd sockfd errMsg n out tr ->
  (out = (true, fd, errMsg) /\
   exists pre r,
     tr = pre ++ [EvCancel false; EvSelect fd selectTimeOut true;
                  EvGetsockopt fd SOL_SOCKET SO_ERROR r 0] /\
     r <> -1) \/
  (fst (fst out) = false /\
   (snd out = "Cancelled" \/
    snd out = "connect timed out after 60 seconds" \/
    exists errnum, snd out = os_strerror os errnum)).
Proof.
  induction 1 as [|n|n out tl Hrun IH|n r Hr|n r v Hrv].
  - right. split; [reflexivity|]. right. now left.
  - right. split; [reflexivity|]. now left.
  - destruct IH as [(-> & pre & r & -> & Hr)|Hfail]; [left|now right].
    split; [reflexivity|].
    exists (EvCancel false :: EvSelect fd selectTimeOut false :: pre), r.
    now split.
  - left. split; [reflexivity|]. exists [], r. now split.
  - right. split; [reflexivity|]. right. right. now exists v.
Qed.

(** What [configure] emits, counted. *)
Lemma configure_measures (fd : Z) (h : history) :
  let cfg := snd (configure P os fd h) in
  total select_usec cfg = 0 /\
  total (one_if is_select) cfg = 0 /\
  total (one_if is_cancel_poll) cfg = 0 /\
  total (one_if is_getsockopt) cfg = 0 /\
  total (one_if is_connect) cfg = 0 /\
  total (one_if is_config) cfg = configure_calls P /\
  sockets_opened cfg = O /\
  forallb (fun e => negb (is_resolve_or_free e)) cfg = true.
Proof.
  cbv zeta. rewrite configure_eq. cbv zeta. unfold configure_calls.
  destruct (SO_NOSIGPIPE_defined P); measure_simpl; repeat split.
Qed.

(** What one attempt emits, counted. *)
Lemma attempt_measures (a : addrinfo) (sockfd0 : Z) (errMsg : string)
    (h : history) :
  let es := snd (connectToAddress P os a sockfd0 errMsg cancel h) in
  (0 <= total select_usec es <= 60000000) /\
  total (one_if is_select) es <= 1200 /\
  total (one_if is_cancel_poll) es <= 1200 /\
  total (one_if is_getsockopt) es <= 1 /\
  total (one_if is_connect) es = Z.of_nat (sockets_opened es) /\
  total (one_if is_config) es = configure_calls P * Z.of_nat (sockets_opened es) /\
  forallb (fun e => negb (is_resolve_or_free e)) es = true.
Proof.
  cbv zeta. rewrite connectToAddress_eq. cbv zeta.
  set (fd := os_socket os h _ _ _).
  destruct (fd <? 0) eqn:Hfd.
  - cbn [snd]. measure_simpl. rewrite Hfd. cbn. repeat split; lia.
  - set (cfg := snd (configure P os fd _)).
    destruct (configure_measures fd
                (h ++ [EvSocket (ai_family a) (ai_socktype a) (ai_protocol a) fd]))
      as (C1 & C2 & C3 & C4 & C5 & C6 & C7 & C8).
    cbv zeta in C1, C2, C3, C4, C5, C6, C7, C8. fold cfg in C1, C2, C3, C4, C5, C6, C7, C8.
    set (rc := os_connect os _ _ _ _).
    destruct ((rc =? -1) && _); cbn [snd].
    + measure_simpl. rewrite Hfd.
      rewrite !total_app, sockets_opened_app, forallb_app, C1, C2, C3, C4, C5, C6,
        C7, C8.
      measure_simpl. repeat split; lia.
    + set (h2 := h ++ _).
      pose proof (await_connection_run os cancel fd (-1) errMsg h2) as Hrun.
      cbv zeta in Hrun.
      destruct (await_run_measures _ _ _ _ _ _ Hrun)
        as (W1 & W2 & W3 & W4 & W5 & W6 & W7 & W8).
      change (Z.of_nat (Z.to_nat maxRetries)) with 1200 in W1, W2, W3.
      measure_simpl. rewrite Hfd.
      rewrite !total_app, sockets_opened_app, forallb_app, C1, C2, C3, C4, C5, C6,
        C7, C8.
      measure_simpl. rewrite W5, W6, W7, W8.
      repeat split; lia.
Qed.

End Measures.

(** ** From the attempts to the call *)

Section CallFacts.

Variable P : platform.
Variable os : environment.
Variable cancel : CancellationRequest.

(** A property of event lists that holds of nothing, of the resolution and
    of [freeaddrinfo], of every attempt, and of two runs put end to end,
    holds of every call. *)
Lemma call_closed (Q : list event -> Prop) :
  Q [] ->
  (forall es1 es2, Q es1 -> Q es2 -> Q (es1 ++ es2)) ->
  (forall e, is_resolve_or_free e = true -> Q [e]) ->
  (forall a sockfd0 errMsg h,
     Q (snd (connectToAddress P os a sockfd0 errMsg cancel h))) ->
  forall hostname port errMsg h,
    Q (snd (connect P os hostname port errMsg cancel h)).
Proof.
  intros Hnil Happ Hframe Hattempt hostname port errMsg h.
  assert (Hfail : forall l m0 h0 m es,
             attempts_fail P os cancel l m0 h0 m es -> Q es).
  { induction 1 as [|a l m0 h0 s m es m' es' E Hrest IH]; [exact Hnil|].
    apply Happ; [|exact IH].
    specialize (Hattempt a (-1) m0 h0). now rewrite E in Hattempt. }
  destruct (connect_cases P os cancel hostname port errMsg h)
    as [[_ ->]|[(_ & m & es & Hall & ->)
               |(pre & a & post & m1 & es1 & fd & m & es & _ & Hpre & Ha & ->)]];
    cbn [snd].
  - now apply Hframe.
  - apply (Happ [_]); [now apply Hframe|].
    apply Happ; [exact (Hfail _ _ _ _ _ Hall)|now apply Hframe].
  - apply (Happ [_]); [now apply Hframe|].
    apply Happ; [exact (Hfail _ _ _ _ _ Hpre)|].
    apply Happ; [|now apply Hframe].
    specialize (Hattempt a (-1) m1 ((h ++ [EvResolve hostname port
      (fst (os_resolve os h hostname port errMsg cancel))]) ++ es1)).
    now rewrite Ha in Hattempt.
Qed.

(** A call makes at most one [socket] call for each resolved candidate. *)
Lemma call_socket_calls_le (hostname : string) (port : Z) (errMsg : string)
    (h : history) :
  (List.length (socket_calls (snd (connect P os hostname port errMsg cancel h)))
   <= List.length (fst (os_resolve os h hostname port errMsg cancel)))%nat.
Proof.
  destruct (connect_cases P os cancel hostname port errMsg h)
    as [[_ ->]|[(_ & m & es & Hall & ->)
               |(pre & a & post & m1 & es1 & fd & m & es & Hd & Hpre & Ha & ->)]];
    cbn [snd socket_calls].
  - cbn [List.length]. lia.
  - destruct (attempts_fail_account P os cancel _ _ _ _ _ Hall)
      as (_ & _ & Hcalls & _).
    rewrite socket_calls_app, Hcalls, length_app, length_map. cbn. lia.
  - destruct (attempts_fail_account P os cancel _ _ _ _ _ Hpre)
      as (_ & _ & Hcalls & _).
    pose proof (attempt_account P os cancel a (-1) m1
                  ((h ++ [EvResolve hostname port
                            (fst (os_resolve os h hostname port errMsg cancel))])
                   ++ es1)) as Hacc.
    cbv zeta in Hacc. rewrite Ha in Hacc. cbn [snd] in Hacc.
    destruct Hacc as (_ & Hcall & _).
    rewrite !socket_calls_app, Hcalls, Hcall, Hd, !length_app, length_map.
    cbn. lia.
Qed.

(** Bounds by the attempt are bounds by the [socket] calls of a call. *)
Lemma call_total_le (w : event -> Z) (B : Z) :
  0 <= B ->
  (forall e, is_resolve_or_free e = true -> w e = 0) ->
  (forall a sockfd0 errMsg h,
     total w (snd (connectToAddress P os a sockfd0 errMsg cancel h)) <= B) ->
  forall hostname port errMsg h,
    total w (snd (connect P os hostname port errMsg cancel h))
    <= B * Z.of_nat
             (List.length (fst (os_resolve os h hostname port errMsg cancel))).
Proof.
  intros HB Hframe Hattempt hostname port errMsg h.
  pose proof (call_socket_calls_le hostname port errMsg h) as Hle.
  assert (H : total w (snd (connect P os hostname port errMsg cancel h))
              <= B * Z.of_nat (List.length (socket_calls
                     (snd (connect P os hostname port errMsg cancel h))))).
  { apply (call_closed
             (fun es => total w es <= B * Z.of_nat (List.length (socket_calls es)))).
    - cbn. lia.
    - intros es1 es2 H1 H2.
      rewrite total_app, socket_calls_app, length_app. lia.
    - intros e He. cbn [total]. rewrite (Hframe e He).
      destruct e; try discriminate He; cbn [socket_calls List.length]; lia.
    - intros a sockfd0 errMsg0 h0.
      pose proof (attempt_account P os cancel a sockfd0 errMsg0 h0) as Hacc.
      cbv zeta in Hacc. destruct Hacc as (_ & -> & _).
      specialize (Hattempt a sockfd0 errMsg0 h0).
      change (Z.of_nat (List.length [socket_args a])) with 1. lia. }
  nia.
Qed.

End CallFacts.

(** ** Further properties of the attempt and of the call *)

Section Further.

Variable P : platform.
Variable os : environment.
Variable cancel : CancellationRequest.

(** A successful attempt leaves [errMsg] as it found it, and ended on a read
    of the pending error that gave zero. *)
Lemma successful_attempt_end (a : addrinfo) (sockfd0 : Z) (errMsg : string)
    (h : history) (fd : Z) (m : string) (es : list event) :
  connectToAddress P os a sockfd0 errMsg cancel h = ((true, fd, m), es) ->
  m = errMsg /\
  exists pre r,
    es = pre ++ [EvCancel false; EvSelect fd selectTimeOut true;
                 EvGetsockopt fd SOL_SOCKET SO_ERROR r 0] /\
    r <> -1.
Proof.
  rewrite connectToAddress_eq. cbv zeta.
  remember (os_socket os h (ai_family a) (ai_socktype a) (ai_protocol a))
    as fd0 eqn:Hfd0.
  destruct (fd0 <? 0); [discriminate|].
  remember (snd (configure P os fd0
                   (h ++ [EvSocket (ai_family a) (ai_socktype a)
                            (ai_protocol a) fd0]))) as cfg eqn:Hcfg.
  remember (os_connect os
              (h ++ EvSocket (ai_family a) (ai_socktype a) (ai_protocol a) fd0
                 :: cfg) fd0 (ai_addr a) (ai_addrlen a)) as rc eqn:Hrc.
  destruct ((rc =? -1) && _); [discriminate|].
  remember (h ++ EvSocket (ai_family a) (ai_socktype a) (ai_protocol a) fd0
              :: cfg ++ [EvConnect fd0 (ai_addr a) (ai_addrlen a) rc])
    as h2 eqn:Hh2.
  pose proof (await_connection_run os cancel fd0 (-1) errMsg h2) as Hrun.
  cbv zeta in Hrun. subst h2.
  destruct (await_run_outcome os fd0 (-1) errMsg _ _ _ Hrun)
    as [(Hout & pre & r & Htr & Hr)|(Hf & _)].
  - rewrite Hout, Htr. intros E. injection E as <- <- <-.
    split; [reflexivity|].
    exists (EvSocket (ai_family a) (ai_socktype a) (ai_protocol a) fd0
            :: cfg ++ EvConnect fd0 (ai_addr a) (ai_addrlen a) rc :: pre), r.
    split; [norm_app; reflexivity|exact Hr].
  - intros E. apply (f_equal (fun x => fst (fst (fst x)))) in E.
    cbn [fst] in E. rewrite Hf in E. discriminate E.
Qed.

(** Every turn of the loop ends at once when cancellation is requested. *)
Lemma await_cancelled_now (fd sockfd : Z) (errMsg : string) (h : history) :
  cancel h = true ->
  await_connection os cancel fd sockfd errMsg h
  = ((false, sockfd, "Cancelled"), [EvCancel true; EvClose fd]).
Proof.
  intros Hc. rewrite await_connection_eq. cbv zeta.
  change (Z.to_nat maxRetries) with (S 1199).
  rewrite connect_poll_S, Hc. reflexivity.
Qed.

Lemma cancelled_attempt (a : addrinfo) (sockfd0 : Z) (errMsg : string)
    (h : history) :
  (forall h', cancel h' = true) ->
  let t := connectToAddress P os a sockfd0 errMsg cancel h in
  fst (fst (fst t)) = false /\
  total (one_if is_select) (snd t) = 0 /\
  total (one_if is_getsockopt) (snd t) = 0.
Proof.
  intros Hc. cbv zeta. rewrite connectToAddress_eq. cbv zeta.
  destruct (_ <? 0); [now repeat split|].
  destruct (configure_measures P os
              (os_socket os h (ai_family a) (ai_socktype a) (ai_protocol a))
              (h ++ [EvSocket (ai_family a) (ai_socktype a) (ai_protocol a)
                       (os_socket os h (ai_family a) (ai_socktype a)
                          (ai_protocol a))]))
    as (_ & C2 & _ & C4 & _).
  cbv zeta in C2, C4.
  destruct ((_ =? -1) && _); cbn [fst snd].
  - measure_simpl. rewrite !total_app, C2, C4. now repeat split.
  - rewrite await_cancelled_now by apply Hc. cbn [fst snd].
    measure_simpl. rewrite !total_app, C2, C4. now repeat split.
Qed.

Lemma attempts_fail_no_frame (l : list addrinfo) (errMsg : string)
    (h : history) (m : string) (es : list event) :
  attempts_fail P os cancel l errMsg h m es ->
  forallb (fun e => negb (is_resolve_or_free e)) es = true.
Proof.
  induction 1 as [|a l m0 h0 s m es m' es' E Hrest IH]; [reflexivity|].
  rewrite forallb_app, IH.
  pose proof (attempt_measures P os cancel a (-1) m0 h0) as H.
  cbv zeta in H. rewrite E in H. cbn [snd] in H.
  destruct H as (_ & _ & _ & _ & _ & _ & ->). reflexivity.
Qed.

Lemma closes_only_live_app (L : list Z) (es1 es2 : list event) :
  closes_only_live L es1 ->
  closes_only_live (live_after L es1) es2 ->
  closes_only_live L (es1 ++ es2).
Proof.
  revert L. induction es1 as [|e es1 IH]; intros L H1 H2; [exact H2|].
  cbn [app closes_only_live] in *. destruct H1 as [He H1].
  split; [exact He|]. apply IH; [exact H1|exact H2].
Qed.

Lemma closes_only_live_quiet (L : list Z) (es : list event) :
  forallb quiet es = true -> closes_only_live L es.
Proof.
  revert L. induction es as [|e es IH]; intros L H; [exact I|].
  cbn [forallb] in H. apply andb_prop in H as [He H].
  cbn [closes_only_live]. split; [|now apply IH].
  destruct e; try exact I. discriminate He.
Qed.

Lemma attempt_closes_only_live (a : addrinfo) (sockfd0 : Z) (errMsg : string)
    (h : history) :
  closes_only_live [] (snd (connectToAddress P os a sockfd0 errMsg cancel h)).
Proof.
  pose proof (attempt_shape P os cancel a sockfd0 errMsg h) as Hshape.
  cbv zeta in Hshape.
  set (fd := os_socket os h (ai_family a) (ai_socktype a) (ai_protocol a)) in *.
  destruct Hshape as [[_ ->]|(Hge & body & Hq & Hcase)].
  - cbn. now split.
  - assert (Hnlt : (fd <? 0) = false) by (apply Z.ltb_ge; exact Hge).
    destruct Hcase as [[_ ->]|(_ & _ & ->)];
      cbn [closes_only_live live_step]; rewrite Hnlt; (split; [exact I|]).
    + now apply closes_only_live_quiet.
    + apply closes_only_live_app; [now apply closes_only_live_quiet|].
      rewrite (live_after_quiet _ _ Hq). cbn. split; [now left|exact I].
Qed.

Lemma attempts_fail_closes_only_live (l : list addrinfo) (errMsg : string)
    (h : history) (m : string) (es : list event) :
  attempts_fail P os cancel l errMsg h m es -> closes_only_live [] es.
Proof.
  induction 1 as [|a l m0 h0 s m es m' es' E Hrest IH]; [exact I|].
  apply closes_only_live_app.
  - pose proof (attempt_closes_only_live a (-1) m0 h0) as H.
    now rewrite E in H.
  - pose proof (attempt_account P os cancel a (-1) m0 h0) as H.
    cbv zeta in H. rewrite E in H. cbn [fst snd] in H.
    destruct H as (_ & _ & [(Ht & _)|(_ & _ & -> & _)]);
      [discriminate Ht|exact IH].
Qed.

(** X1. When [socket] gives no descriptor the attempt ends there: it fails
    with the message "Cannot create a socket" and -1 in [sockfd], and the
    [socket] call is its only event: nothing is configured, connected or
    closed. *)
Theorem socket_failure_ends_attempt (a : addrinfo) (sockfd0 : Z)
    (errMsg : string) (h : history) :
  let fd := os_socket os h (ai_family a) (ai_socktype a) (ai_protocol a) in
  fd < 0 ->
  connectToAddress P os a sockfd0 errMsg cancel h
  = ((false, -1, "Cannot create a socket"),
     [EvSocket (ai_family a) (ai_socktype a) (ai_protocol a) fd]).
Proof.
  cbv zeta. intros Hlt. rewrite connectToAddress_eq. cbv zeta.
  apply Z.ltb_lt in Hlt. now rewrite Hlt.
Qed.

(** X2. When [connect] answers -1 and [errno] is not [EINPROGRESS], the
    attempt closes the socket and fails without a turn of the loop; its
    message is [strerror] of the value [errno] holds after the close, which
    is read again there. *)
Theorem connect_failure_at_once (a : addrinfo) (sockfd0 : Z)
    (errMsg : string) (h : history) :
  let fd := os_socket os h (ai_family a) (ai_socktype a) (ai_protocol a) in
  let e0 := EvSocket (ai_family a) (ai_socktype a) (ai_protocol a) fd in
  let cfg := snd (configure P os fd (h ++ [e0])) in
  let ec := EvConnect fd (ai_addr a) (ai_addrlen a) (-1) in
  0 <= fd ->
  os_connect os (h ++ e0 :: cfg) fd (ai_addr a) (ai_addrlen a) = -1 ->
  os_errno os (h ++ e0 :: cfg ++ [ec]) <> EINPROGRESS P ->
  connectToAddress P os a sockfd0 errMsg cancel h
  = ((false, -1,
      os_strerror os (os_errno os (h ++ e0 :: cfg ++ [ec; EvClose fd]))),
     e0 :: cfg ++ [ec; EvClose fd]).
Proof.
  cbv zeta. intros Hge Hrc Herr. rewrite connectToAddress_eq. cbv zeta.
  replace (_ <? 0) with false by (symmetry; apply Z.ltb_ge; exact Hge).
  rewrite Hrc. apply Z.eqb_neq in Herr. rewrite Herr. cbn [andb negb Z.eqb].
  norm_app. reflexivity.
Qed.

(** X3. When resolution gives no candidate the call returns -1 with the
    message the resolver left, and the resolution is its only event: no
    [socket] call is made and [freeaddrinfo] is not called. *)
Theorem unresolved_call_stops (hostname : string) (port : Z) (errMsg : string)
    (h : history) :
  let d := os_resolve os h hostname port errMsg cancel in
  fst d = [] ->
  connect P os hostname port errMsg cancel h
  = ((-1, snd d), [EvResolve hostname port []]).
Proof.
  cbv zeta. intros Hd. rewrite connect_eq. cbv zeta. now rewrite Hd.
Qed.

(** X4. When resolution gives candidates, the resolution is the first event
    of the call and [freeaddrinfo] of the resolved list is the last, whether
    the call succeeds or fails; no other resolution and no other
    [freeaddrinfo] happens between them. *)
Theorem resolved_call_frees_once (hostname : string) (port : Z)
    (errMsg : string) (h : history) :
  let d := os_resolve os h hostname port errMsg cancel in
  fst d <> [] ->
  exists mid,
    snd (connect P os hostname port errMsg cancel h)
    = EvResolve hostname port (fst d) :: mid ++ [EvFreeaddrinfo (fst d)] /\
    forallb (fun e => negb (is_resolve_or_free e)) mid = true.
Proof.
  cbv zeta. intros Hne.
  destruct (connect_cases P os cancel hostname port errMsg h)
    as [[Hd _]|[(_ & m & es & Hall & ->)
               |(pre & a & post & m1 & es1 & fd & m & es & _ & Hpre & Ha & ->)]].
  - now elim Hne.
  - exists es. split; [reflexivity|]. exact (attempts_fail_no_frame _ _ _ _ _ Hall).
  - exists (es1 ++ es). split; [cbn [snd]; norm_app; reflexivity|].
    rewrite forallb_app, (attempts_fail_no_frame _ _ _ _ _ Hpre).
    pose proof (attempt_measures P os cancel a (-1) m1
                  ((h ++ [EvResolve hostname port
                            (fst (os_resolve os h hostname port errMsg cancel))])
                   ++ es1)) as H.
    cbv zeta in H. rewrite Ha in H. cbn [snd] in H.
    destruct H as (_ & _ & _ & _ & _ & _ & ->). reflexivity.
Qed.

(** X5. Waiting is bounded.  An attempt makes at most 1200 [select] calls and
    at most 1200 polls of the cancellation request, and the time its
    [select] calls may wait adds up to at most 60 seconds; a call makes at
    most 1200 of each, and waits at most 60 seconds, for each resolved
    candidate. *)
Theorem waiting_is_bounded :
  (forall (a : addrinfo) (sockfd0 : Z) (errMsg : string) (h : history),
     let es := snd (connectToAddress P os a sockfd0 errMsg cancel h) in
     total (one_if is_select) es <= 1200 /\
     total (one_if is_cancel_poll) es <= 1200 /\
     total select_usec es <= 60 * 1000 * 1000) /\
  (forall (hostname : string) (port : Z) (errMsg : string) (h : history),
     let n := Z.of_nat (List.length
                          (fst (os_resolve os h hostname port errMsg cancel))) in
     let es := snd (connect P os hostname port errMsg cancel h) in
     total (one_if is_select) es <= 1200 * n /\
     total (one_if is_cancel_poll) es <= 1200 * n /\
     total select_usec es <= 60 * 1000 * 1000 * n).
Proof.
  split.
  - intros a sockfd0 errMsg h. cbv zeta.
    destruct (attempt_measures P os cancel a sockfd0 errMsg h)
      as (H1 & H2 & H3 & _).
    repeat split; lia.
  - intros hostname port errMsg h. cbv zeta. repeat split.
    + apply (call_total_le P os cancel (one_if is_select) 1200); [lia| |].
      * intros e He. destruct e; try discriminate He; reflexivity.
      * intros a s m h0.
        destruct (attempt_measures P os cancel a s m h0) as (_ & H2 & _).
        exact H2.
    + apply (call_total_le P os cancel (one_if is_cancel_poll) 1200); [lia| |].
      * intros e He. destruct e; try discriminate He; reflexivity.
      * intros a s m h0.
        destruct (attempt_measures P os cancel a s m h0) as (_ & _ & H3 & _).
        exact H3.
    + apply (call_total_le P os cancel select_usec (60 * 1000 * 1000)); [lia| |].
      * intros e He. destruct e; try discriminate He; reflexivity.
      * intros a s m h0.
        destruct (attempt_measures P os cancel a s m h0) as (H1 & _).
        lia.
Qed.

(** X6. An attempt succeeds only on a read of the pending error that gave
    zero: the events of a successful attempt end with a poll that answered
    no, a [select] that reported the descriptor, and a [getsockopt(SO_ERROR)]
    that did not fail and left 0; the descriptor handed back is the one of
    these calls, and the attempt has closed nothing. *)
Theorem success_only_on_zero_pending_error (a : addrinfo) (sockfd0 : Z)
    (errMsg : string) (h : history) (fd : Z) (m : string) (es : list event) :
  connectToAddress P os a sockfd0 errMsg cancel h = ((true, fd, m), es) ->
  (exists pre r,
     es = pre ++ [EvCancel false; EvSelect fd 50000 true;
                  EvGetsockopt fd SOL_SOCKET SO_ERROR r 0] /\
     r <> -1) /\
  sockets_closed es = O /\
  total (one_if is_getsockopt) es = 1.
Proof.
  intros E.
  destruct (successful_attempt_end _ _ _ _ _ _ _ E) as (_ & pre & r & Hes & Hr).
  pose proof (attempt_account P os cancel a sockfd0 errMsg h) as Hacc.
  pose proof (attempt_measures P os cancel a sockfd0 errMsg h) as Hm.
  cbv zeta in Hacc, Hm. rewrite E in Hacc, Hm. cbn [fst snd] in Hacc, Hm.
  destruct Hacc as (_ & _ & [(_ & _ & _ & _ & _ & _ & Hc & _)|(Hf & _)]);
    [|discriminate Hf].
  destruct Hm as (_ & _ & _ & Hg & _).
  repeat split.
  - exists pre, r. now split.
  - exact Hc.
  - rewrite Hes in Hg |- *. rewrite total_app in Hg |- *.
    assert (0 <= total (one_if is_getsockopt) pre).
    { clear. induction pre as [|e pre IH]; cbn [total]; [lia|].
      unfold one_if at 1. destruct (is_getsockopt e); lia. }
    revert Hg. measure_simpl. lia.
Qed.

(** X7. The message of an attempt.  A successful attempt leaves [errMsg] as
    it was on entry.  A failed attempt leaves one of "Cannot create a
    socket", "Cancelled", "connect timed out after 60 seconds", or a text
    given by [strerror]. *)
Theorem attempt_message (a : addrinfo) (sockfd0 : Z) (errMsg : string)
    (h : history) :
  let t := connectToAddress P os a sockfd0 errMsg cancel h in
  (fst (fst (fst t)) = true /\ snd (fst t) = errMsg) \/
  (fst (fst (fst t)) = false /\
   (snd (fst t) = "Cannot create a socket" \/
    snd (fst t) = "Cancelled" \/
    snd (fst t) = "connect timed out after 60 seconds" \/
    exists errnum, snd (fst t) = os_strerror os errnum)).
Proof.
  cbv zeta. rewrite connectToAddress_eq. cbv zeta.
  set (fd0 := os_socket os h _ _ _).
  destruct (fd0 <? 0); [right; split; [reflexivity|now left]|].
  set (cfg := snd (configure P os fd0 _)).
  set (rc := os_connect os _ _ _ _).
  destruct ((rc =? -1) && _).
  - right. split; [reflexivity|]. right. right. right. eexists. reflexivity.
  - set (h2 := h ++ _).
    pose proof (await_connection_run os cancel fd0 (-1) errMsg h2) as Hrun.
    cbv zeta in Hrun. cbn [fst].
    destruct (await_run_outcome os _ _ _ _ _ _ Hrun)
      as [(Hout & _)|(Hf & Hmsg)].
    + left. rewrite Hout. now split.
    + right. split; [exact Hf|].
      destruct Hmsg as [Hm|[Hm|Hm]]; auto.
Qed.

(** X8. A call that succeeds does not reset [errMsg]: it returns the message
    left by the last attempt that failed before the successful one, and what
    the resolver left when the first candidate succeeded. *)
Theorem success_keeps_last_message (hostname : string) (port : Z)
    (errMsg : string) (h : history) (pre : list addrinfo) (a : addrinfo)
    (post : list addrinfo) (m1 : string) (es1 : list event) (fd : Z)
    (m : string) (es : list event) :
  let d := os_resolve os h hostname port errMsg cancel in
  let e := EvResolve hostname port (fst d) in
  fst d = pre ++ a :: post ->
  attempts_fail P os cancel pre (snd d) (h ++ [e]) m1 es1 ->
  connectToAddress P os a (-1) m1 cancel (h ++ e :: es1) = ((true, fd, m), es) ->
  let r := connect P os hostname port errMsg cancel h in
  fst r = (fd, m1) /\ (pre = [] -> fst r = (fd, snd d)).
Proof.
  cbv zeta. intros Hd Hpre Ha.
  assert (Ha' : connectToAddress P os a (-1) m1 cancel
                  ((h ++ [EvResolve hostname port
                            (fst (os_resolve os h hostname port errMsg cancel))])
                   ++ es1) = ((true, fd, m), es))
    by (norm_app; exact Ha).
  rewrite (connect_run_success P os cancel hostname port errMsg h pre a post
             m1 es1 fd m es Hd Hpre Ha').
  destruct (successful_attempt_end _ _ _ _ _ _ _ Ha') as (-> & _).
  cbn [fst]. split; [reflexivity|].
  intros ->. inversion Hpre; subst. reflexivity.
Qed.

(** X9. A call made while cancellation is requested throughout never waits
    and never succeeds: it returns -1, makes no [select] and no
    [getsockopt] call, and still makes the [socket] call of every resolved
    candidate, in order. *)
Theorem cancelled_call_never_waits (hostname : string) (port : Z)
    (errMsg : string) (h : history) :
  (forall h', cancel h' = true) ->
  let d := os_resolve os h hostname port errMsg cancel in
  let r := connect P os hostname port errMsg cancel h in
  fst (fst r) = -1 /\
  total (one_if is_select) (snd r) = 0 /\
  total (one_if is_getsockopt) (snd r) = 0 /\
  socket_calls (snd r) = map socket_args (fst d).
Proof.
  intros Hc. cbv zeta.
  assert (Hq : total (one_if is_select)
                 (snd (connect P os hostname port errMsg cancel h)) = 0 /\
               total (one_if is_getsockopt)
                 (snd (connect P os hostname port errMsg cancel h)) = 0).
  { apply (call_closed P os cancel
             (fun es => total (one_if is_select) es = 0 /\
                        total (one_if is_getsockopt) es = 0)).
    - now split.
    - intros es1 es2 [H1 H2] [H3 H4]. rewrite !total_app. lia.
    - intros e He. destruct e; try discriminate He; now split.
    - intros a s m h0.
      destruct (cancelled_attempt a s m h0 Hc) as (_ & H1 & H2). now split. }
  destruct Hq as [Hq1 Hq2].
  destruct (connect_cases P os cancel hostname port errMsg h)
    as [[Hd E]|[(_ & m & es & Hall & E)
               |(pre & a & post & m1 & es1 & fd & m & es & _ & _ & Ha & _)]].
  - repeat split; try assumption; rewrite E; [reflexivity|].
    rewrite Hd. reflexivity.
  - repeat split; try assumption; rewrite E; [reflexivity|].
    destruct (attempts_fail_account P os cancel _ _ _ _ _ Hall)
      as (_ & _ & Hcalls & _).
    cbn [snd socket_calls]. rewrite socket_calls_app, Hcalls. cbn.
    now rewrite app_nil_r.
  - exfalso.
    destruct (cancelled_attempt a (-1) m1
                ((h ++ [EvResolve hostname port
                          (fst (os_resolve os h hostname port errMsg cancel))])
                 ++ es1) Hc) as (Hf & _).
    cbv zeta in Hf. rewrite Ha in Hf. discriminate Hf.
Qed.

(** X10. A call closes only what is open: every [close] of a call is of a
    descriptor that a [socket] call of this call created and that has not
    been closed since; no descriptor is closed twice, and none that the
    call did not create. *)
Theorem closes_only_what_is_live (hostname : string) (port : Z)
    (errMsg : string) (h : history) :
  closes_only_live [] (snd (connect P os hostname port errMsg cancel h)).
Proof.
  destruct (connect_cases P os cancel hostname port errMsg h)
    as [[_ ->]|[(_ & m & es & Hall & ->)
               |(pre & a & post & m1 & es1 & fd & m & es & _ & Hpre & Ha & ->)]];
    cbn [snd].
  - cbn. now split.
  - cbn [closes_only_live live_step]. split; [exact I|].
    apply closes_only_live_app.
    + exact (attempts_fail_closes_only_live _ _ _ _ _ Hall).
    + cbn. now split.
  - cbn [closes_only_live live_step]. split; [exact I|].
    apply closes_only_live_app.
    + exact (attempts_fail_closes_only_live _ _ _ _ _ Hpre).
    + destruct (attempts_fail_account P os cancel _ _ _ _ _ Hpre)
        as (_ & -> & _).
      apply closes_only_live_app.
      * pose proof (attempt_closes_only_live a (-1) m1
                      ((h ++ [EvResolve hostname port
                                (fst (os_resolve os h hostname port errMsg
                                        cancel))]) ++ es1)) as H.
        now rewrite Ha in H.
      * cbn. now split.
Qed.

(** X11. Every socket a call creates is configured once and connected once:
    the [connect] calls of a call are as many as the sockets it created, and
    its configuration calls are two for each of them, three where
    [SO_NOSIGPIPE] is defined. *)
Theorem created_sockets_configured_and_connected (hostname : string)
    (port : Z) (errMsg : string) (h : history) :
  let es := snd (connect P os hostname port errMsg cancel h) in
  total (one_if is_connect) es = Z.of_nat (sockets_opened es) /\
  total (one_if is_config) es = configure_calls P * Z.of_nat (sockets_opened es).
Proof.
  cbv zeta.
  apply (call_closed P os cancel
           (fun es => total (one_if is_connect) es = Z.of_nat (sockets_opened es) /\
                      total (one_if is_config) es
                      = configure_calls P * Z.of_nat (sockets_opened es))).
  - cbn. split; lia.
  - intros es1 es2 [H1 H2] [H3 H4].
    rewrite !total_app, sockets_opened_app, Nat2Z.inj_add, Z.mul_add_distr_l.
    lia.
  - intros e He. destruct e; try discriminate He; cbn; split; lia.
  - intros a s m h0.
    destruct (attempt_measures P os cancel a s m h0)
      as (_ & _ & _ & _ & H5 & H6 & _).
    now split.
Qed.

End Further.

(** ** What the returned descriptor tells *)

Section Outcome.

Variable P : platform.
Variable os : environment.
Variable cancel : CancellationRequest.

(** The events of a successful attempt: the socket, its configuration, the
    [connect] call on it, which did not fail at once, the turns of the loop,
    and at the end the read of the pending error that gave zero. *)
Lemma successful_attempt_events (a : addrinfo) (sockfd0 : Z) (errMsg : string)
    (h : history) (fd : Z) (m : string) (es : list event) :
  connectToAddress P os a sockfd0 errMsg cancel h = ((true, fd, m), es) ->
  let e0 := EvSocket (ai_family a) (ai_socktype a) (ai_protocol a) fd in
  let cfg := snd (configure P os fd (h ++ [e0])) in
  exists rc mid r,
    es = e0 :: cfg ++ EvConnect fd (ai_addr a) (ai_addrlen a) rc
         :: mid ++ [EvCancel false; EvSelect fd 50000 true;
                    EvGetsockopt fd SOL_SOCKET SO_ERROR r 0] /\
    (rc <> -1 \/
     os_errno os (h ++ e0 :: cfg ++ [EvConnect fd (ai_addr a) (ai_addrlen a) rc])
     = EINPROGRESS P) /\
    r <> -1.
Proof.
  rewrite connectToAddress_eq. cbv zeta.
  remember (os_socket os h (ai_family a) (ai_socktype a) (ai_protocol a))
    as fd0 eqn:Hfd0.
  destruct (fd0 <? 0); [discriminate|].
  remember (snd (configure P os fd0
                   (h ++ [EvSocket (ai_family a) (ai_socktype a)
                            (ai_protocol a) fd0]))) as cfg eqn:Hcfg.
  remember (os_connect os
              (h ++ EvSocket (ai_family a) (ai_socktype a) (ai_protocol a) fd0
                 :: cfg) fd0 (ai_addr a) (ai_addrlen a)) as rc eqn:Hrc.
  destruct ((rc =? -1)
            && negb (os_errno os
                       (h ++ EvSocket (ai_family a) (ai_socktype a)
                               (ai_protocol a) fd0
                          :: cfg ++ [EvConnect fd0 (ai_addr a) (ai_addrlen a) rc])
                     =? EINPROGRESS P)) eqn:Hb; [discriminate|].
  pose proof (await_connection_run os cancel fd0 (-1) errMsg
                (h ++ EvSocket (ai_family a) (ai_socktype a) (ai_protocol a) fd0
                   :: cfg ++ [EvConnect fd0 (ai_addr a) (ai_addrlen a) rc]))
    as Hrun.
  cbv zeta in Hrun.
  destruct (await_run_outcome os fd0 (-1) errMsg _ _ _ Hrun)
    as [(Hout & pre & r & Htr & Hr)|(Hf & _)].
  - rewrite Hout, Htr. intros E. injection E as <- <- <-.
    rewrite <- Hcfg. exists rc, pre, r.
    split; [reflexivity|]. split; [|exact Hr].
    apply andb_false_iff in Hb as [Hb|Hb].
    + left. now apply Z.eqb_neq.
    + right. apply negb_false_iff in Hb. now apply Z.eqb_eq.
  - intros E. apply (f_equal (fun x => fst (fst (fst x)))) in E.
    cbn [fst] in E. rewrite Hf in E. discriminate E.
Qed.

(** C10. An attempt hands back -1 in [sockfd] when it fails.  When it
    succeeds it hands back the descriptor it created, which is not negative
    and is a connected one: the attempt configured it, issued the [connect]
    call on it to the address of the candidate, which did not fail at once,
    and ended on a [getsockopt(SO_ERROR)] on it that did not fail and left
    zero, and it did not close it.  The call returns -1 exactly when
    resolution gave nothing or every attempt failed, and a descriptor that
    is not negative exactly when some attempt succeeded after the attempts
    before it failed; it then returns that attempt's descriptor, connected
    as said and the only descriptor left open. *)
Theorem sockfd_tells_outcome :
  (forall (a : addrinfo) (sockfd0 : Z) (errMsg : string) (h : history),
     let t := connectToAddress P os a sockfd0 errMsg cancel h in
     let sockfd := snd (fst (fst t)) in
     let e0 := EvSocket (ai_family a) (ai_socktype a) (ai_protocol a) sockfd in
     let cfg := snd (configure P os sockfd (h ++ [e0])) in
     (fst (fst (fst t)) = true /\ 0 <= sockfd /\
      sockfd = os_socket os h (ai_family a) (ai_socktype a) (ai_protocol a) /\
      (exists rc mid r,
         snd t = e0 :: cfg ++ EvConnect sockfd (ai_addr a) (ai_addrlen a) rc
                 :: mid ++ [EvCancel false; EvSelect sockfd 50000 true;
                            EvGetsockopt sockfd SOL_SOCKET SO_ERROR r 0] /\
         (rc <> -1 \/
          os_errno os
            (h ++ e0 :: cfg ++ [EvConnect sockfd (ai_addr a) (ai_addrlen a) rc])
          = EINPROGRESS P) /\
         r <> -1) /\
      sockets_closed (snd t) = O) \/
     (fst (fst (fst t)) = false /\ sockfd = -1)) /\
  (forall (hostname : string) (port : Z) (errMsg : string) (h : history),
     let d := os_resolve os h hostname port errMsg cancel in
     let e := EvResolve hostname port (fst d) in
     let run := connect P os hostname port errMsg cancel h in
     let ret := fst (fst run) in
     (ret = -1 <->
      (fst d = [] \/
       exists m es, attempts_fail P os cancel (fst d) (snd d) (h ++ [e]) m es)) /\
     (0 <= ret <->
      exists pre a post m1 es1 m es,
        fst d = pre ++ a :: post /\
        attempts_fail P os cancel pre (snd d) (h ++ [e]) m1 es1 /\
        connectToAddress P os a (-1) m1 cancel ((h ++ [e]) ++ es1)
        = ((true, ret, m), es) /\
        snd run = e :: es1 ++ es ++ [EvFreeaddrinfo (fst d)] /\
        (exists before rc mid r,
           es = before ++ EvConnect ret (ai_addr a) (ai_addrlen a) rc
                :: mid ++ [EvCancel false; EvSelect ret 50000 true;
                           EvGetsockopt ret SOL_SOCKET SO_ERROR r 0] /\
           r <> -1) /\
        live_after [] (snd run) = [ret])).
Proof.
  split.
  - intros a sockfd0 errMsg h. cbv zeta.
    destruct (connectToAddress P os a sockfd0 errMsg cancel h)
      as [[[b s] m] es] eqn:E.
    pose proof (attempt_account P os cancel a sockfd0 errMsg h) as H.
    cbv zeta in H. rewrite E in H. cbn [fst snd] in H |- *.
    destruct H as (_ & _ & [(Ht & Hfd & Hge & _ & _ & _ & Hc & _)|(Hf & Hs & _)]).
    + left. subst b.
      pose proof (successful_attempt_events a sockfd0 errMsg h s m es E) as Hev.
      cbv zeta in Hev. rewrite <- Hfd in Hge.
      repeat split; assumption.
    + right. now split.
  - intros hostname port errMsg h. cbv zeta.
    destruct (connect_cases P os cancel hostname port errMsg h)
      as [[Hd E]|[(Hne & m & es & Hall & E)
                 |(pre & a & post & m1 & es1 & fd & m & es & Hd & Hpre & Ha & E)]];
      rewrite E; cbn [fst snd].
    + split; split.
      * intros _. now left.
      * reflexivity.
      * lia.
      * intros (pre & a & post & _ & _ & _ & _ & Hsplit & _).
        rewrite Hd in Hsplit. now destruct pre.
    + split; split.
      * intros _. right. now exists m, es.
      * reflexivity.
      * lia.
      * intros (pre & a & post & m1 & es1 & m2 & es2 & Hsplit & Hpre & Ha & _).
        destruct (successful_attempt P os cancel _ _ _ _ _ _ _ Ha) as (Hge & _).
        lia.
    + destruct (successful_attempt P os cancel _ _ _ _ _ _ _ Ha)
        as (Hge & _ & _ & Hlive).
      split; split.
      * lia.
      * intros [Hnil|(m' & es' & Hall)].
        -- rewrite Hd in Hnil. now destruct pre.
        -- assert (Hne : fst (os_resolve os h hostname port errMsg cancel) <> [])
             by (rewrite Hd; now destruct pre).
           pose proof (connect_run_failure P os cancel hostname port errMsg h
                         m' es' Hne Hall) as E2.
           rewrite E in E2. injection E2 as -> _ _. lia.
      * intros _. exists pre, a, post, m1, es1, m, es.
        repeat split; try assumption.
        -- pose proof (successful_attempt_events a (-1) m1 _ fd m es Ha) as Hev.
           cbv zeta in Hev. destruct Hev as (rc & mid & r & Hes & _ & Hr).
           exists (EvSocket (ai_family a) (ai_socktype a) (ai_protocol a) fd
                   :: snd (configure P os fd
                             (((h ++ [EvResolve hostname port
                                        (fst (os_resolve os h hostname port
                                                errMsg cancel))]) ++ es1)
                              ++ [EvSocket (ai_family a) (ai_socktype a)
                                    (ai_protocol a) fd]))), rc, mid, r.
           split; [|exact Hr]. rewrite Hes. norm_app. reflexivity.
        -- destruct (attempts_fail_account P os cancel _ _ _ _ _ Hpre)
             as (_ & Hl1 & _).
           change (live_after [] (es1 ++ es ++ [EvFreeaddrinfo
                     (fst (os_resolve os h hostname port errMsg cancel))])
                   = [fd]).
           now rewrite !live_after_app, Hl1, Hlive.
      * intros _. exact Hge.
Qed.

End Outcome.

(** ** Candidates that never answer *)

Section Silent.

Variable P : platform.
Variable os : environment.
Variable cancel : CancellationRequest.

Hypothesis socket_given : forall h f t p, 0 <= os_socket os h f t p.
Hypothesis in_progress : forall h, os_errno os h = EINPROGRESS P.
Hypothesis not_cancelled : forall h, cancel h = false.
Hypothesis not_writable : forall h fd usec, os_select os h fd usec = false.

Lemma idle_rounds_measures (fd : Z) (k : nat) :
  total (one_if is_select) (idle_rounds fd k) = Z.of_nat k /\
  total select_usec (idle_rounds fd k) = 50000 * Z.of_nat k.
Proof.
  induction k as [|k [IH1 IH2]]; [now split|].
  cbn [idle_rounds]. measure_simpl. change selectTimeOut with 50000.
  rewrite IH1, IH2. split; lia.
Qed.

Lemma silent_attempt (a : addrinfo) (sockfd0 : Z) (errMsg : string)
    (h : history) :
  let t := connectToAddress P os a sockfd0 errMsg cancel h in
  fst t = (false, -1, "connect timed out after 60 seconds") /\
  total (one_if is_select) (snd t) = 1200 /\
  total select_usec (snd t) = 60000000.
Proof.
  cbv zeta.
  destruct (started P os a h) as [[fd pro]|] eqn:Hst.
  - rewrite (connectToAddress_started P os cancel a sockfd0 errMsg h fd pro Hst).
    cbv zeta. rewrite await_connection_eq. cbv zeta.
    assert (E : connect_poll os cancel (Z.to_nat maxRetries) fd (-1) errMsg
                  (h ++ pro) = (None, idle_rounds fd (Z.to_nat maxRetries))).
    { rewrite <- (Nat.add_0_r (Z.to_nat maxRetries)) at 1.
      rewrite (connect_poll_idle os cancel fd (-1) errMsg _ 0 (h ++ pro)).
      - cbv zeta. cbn [connect_poll ret fst snd]. now rewrite app_nil_r.
      - intros j _. split; [apply not_cancelled|apply not_writable]. }
    rewrite E. cbn [fst snd]. split; [reflexivity|].
    destruct (idle_rounds_measures fd (Z.to_nat maxRetries)) as [I1 I2].
    change (Z.of_nat (Z.to_nat maxRetries)) with 1200 in I1, I2.
    assert (Hpro : total (one_if is_select) pro = 0 /\ total select_usec pro = 0).
    { revert Hst. unfold started. cbv zeta.
      destruct (_ <? 0); [discriminate|].
      destruct ((_ =? -1) && _); [discriminate|].
      destruct (configure_measures P os
                  (os_socket os h (ai_family a) (ai_socktype a) (ai_protocol a))
                  (h ++ [EvSocket (ai_family a) (ai_socktype a) (ai_protocol a)
                           (os_socket os h (ai_family a) (ai_socktype a)
                              (ai_protocol a))]))
        as (C1 & C2 & _).
      cbv zeta in C1, C2.
      intros E'. apply (f_equal (fun x => match x with
                                          | Some (_, l) => l
                                          | None => []
                                          end)) in E'.
      rewrite <- E'. measure_simpl. rewrite !total_app, C1, C2. now split. }
    destruct Hpro as [P1 P2].
    rewrite !total_app, I1, I2, P1, P2. measure_simpl. split; lia.
  - exfalso. revert Hst. unfold started. cbv zeta.
    replace (_ <? 0) with false
      by (symmetry; apply Z.ltb_ge; apply socket_given).
    rewrite in_progress, Z.eqb_refl, andb_false_r. discriminate.
Qed.

Lemma silent_attempts (l : list addrinfo) (m0 : string) (h : history)
    (m : string) (es : list event) :
  attempts_fail P os cancel l m0 h m es ->
  total (one_if is_select) es = 1200 * Z.of_nat (List.length l) /\
  total select_usec es = 60000000 * Z.of_nat (List.length l) /\
  (l <> [] -> m = "connect timed out after 60 seconds").
Proof.
  induction 1 as [|a l m0 h0 s m1 es m' es' E Hrest (I1 & I2 & I3)].
  - cbn. repeat split. intros H. now elim H.
  - destruct (silent_attempt a (-1) m0 h0) as (S1 & S2 & S3).
    cbv zeta in S1, S2, S3. rewrite E in S1, S2, S3. cbn [fst snd] in S1, S2, S3.
    injection S1 as _ Hm1.
    rewrite !total_app, S2, S3, I1, I2. cbn [List.length].
    repeat split; try lia.
    intros _. destruct l as [|b l].
    + inversion Hrest; subst. reflexivity.
    + apply I3. discriminate.
Qed.

(** X12. Each candidate has its own budget.  When every socket can be
    created, every connection stays in progress, cancellation is never
    requested and no descriptor is ever reported writable, a call makes 1200
    [select] calls, waiting 60 seconds, for every resolved candidate in
    turn, and returns -1; with at least one candidate its message is
    "connect timed out after 60 seconds". *)
Theorem silent_candidates_use_full_budget (hostname : string) (port : Z)
    (errMsg : string) (h : history) :
  let d := os_resolve os h hostname port errMsg cancel in
  let n := Z.of_nat (List.length (fst d)) in
  let r := connect P os hostname port errMsg cancel h in
  fst (fst r) = -1 /\
  total (one_if is_select) (snd r) = 1200 * n /\
  total select_usec (snd r) = 60 * 1000 * 1000 * n /\
  (fst d <> [] -> snd (fst r) = "connect timed out after 60 seconds").
Proof.
  cbv zeta.
  destruct (connect_cases P os cancel hostname port errMsg h)
    as [[Hd ->]|[(Hne & m & es & Hall & ->)
               |(pre & a & post & m1 & es1 & fd & m & es & _ & _ & Ha & _)]].
  - rewrite Hd. cbn. repeat split. intros H. now elim H.
  - destruct (silent_attempts _ _ _ _ _ Hall) as (S1 & S2 & S3).
    cbn [fst snd]. measure_simpl. rewrite !total_app, S1, S2. measure_simpl.
    repeat split; try lia. intros _. now apply S3.
  - exfalso.
    destruct (silent_attempt a (-1) m1
                ((h ++ [EvResolve hostname port
                          (fst (os_resolve os h hostname port errMsg cancel))])
                 ++ es1)) as (S1 & _).
    cbv zeta in S1. rewrite Ha in S1. discriminate S1.
Qed.

End Silent.

(** C10 on a sample run: A is refused, B accepts.  The call returns a
    descriptor that is not negative, and the attempt on B connected it. *)
Lemma sockfd_tells_outcome_witness :
  0 <= fst (fst (connect linux (sample_os [cand_A; cand_B; cand_C] 0 fates)
                   "host" 80 "" never_cancelled [])) /\
  exists rc mid r,
    snd (connectToAddress linux (sample_os [cand_B] 0 fates) cand_B 7 ""
           never_cancelled [])
    = EvSocket 2 1 6 3
      :: [EvSetsockopt 3 IPPROTO_TCP TCP_NODELAY 1 0;
          EvFcntl 3 F_SETFL O_NONBLOCK 0]
      ++ EvConnect 3 addr_B 16 rc
      :: mid ++ [EvCancel false; EvSelect 3 50000 true;
                 EvGetsockopt 3 SOL_SOCKET SO_ERROR r 0] /\
    (rc <> -1 \/ 115 = 115) /\
    r <> -1.
Proof.
  split.
  - apply (proj2 (proj2 (proj2 (sockfd_tells_outcome linux
                   (sample_os [cand_A; cand_B; cand_C] 0 fates) never_cancelled)
                   "host" 80 "" []))).
    exists [cand_A], cand_B, [cand_C], "Connection refused",
      (sample_refused addr_A), "Connection refused", (sample_connected addr_B).
    split; [reflexivity|].
    split; [exact (sample_A_refused [cand_A; cand_B; cand_C])|].
    split; [reflexivity|].
    split; [reflexivity|].
    split; [|reflexivity].
    exists [EvSocket 2 1 6 3; EvSetsockopt 3 IPPROTO_TCP TCP_NODELAY 1 0;
            EvFcntl 3 F_SETFL O_NONBLOCK 0], (-1), [], 0.
    split; [reflexivity|discriminate].
  - destruct (proj1 (sockfd_tells_outcome linux (sample_os [cand_B] 0 fates)
                       never_cancelled) cand_B 7 "" [])
      as [(_ & _ & _ & Hev & _)|(Hf & _)].
    + exact Hev.
    + discriminate Hf.
Defined.

(** ** The further properties on sample runs *)

Lemma socket_failure_ends_attempt_witness :
  connectToAddress linux (sample_os [cand_X] 0 fates) cand_X 7 ""
    never_cancelled []
  = ((false, -1, "Cannot create a socket"), [EvSocket 10 1 6 (-1)]).
Proof.
  refine (socket_failure_ends_attempt linux (sample_os [cand_X] 0 fates)
            never_cancelled cand_X 7 "" [] _).
  reflexivity.
Defined.

Lemma connect_failure_at_once_witness :
  connectToAddress linux (abrupt_os [cand_A]) cand_A 7 "" never_cancelled []
  = ((false, -1, "Input/output error"),
     [EvSocket 2 1 6 3; EvSetsockopt 3 IPPROTO_TCP TCP_NODELAY 1 0;
      EvFcntl 3 F_SETFL O_NONBLOCK 0; EvConnect 3 addr_A 16 (-1); EvClose 3]).
Proof.
  refine (connect_failure_at_once linux (abrupt_os [cand_A]) never_cancelled
            cand_A 7 "" [] _ eq_refl _).
  - vm_compute. discriminate.
  - vm_compute. discriminate.
Defined.

Lemma unresolved_call_stops_witness :
  connect linux (sample_os [] 0 fates) "host" 80 "no such host"
    never_cancelled []
  = ((-1, "no such host"), [EvResolve "host" 80 []]).
Proof.
  exact (unresolved_call_stops linux (sample_os [] 0 fates) never_cancelled
           "host" 80 "no such host" [] eq_refl).
Defined.

Lemma resolved_call_frees_once_witness :
  exists mid,
    snd (connect linux (sample_os [cand_A; cand_B] 0 fates) "host" 80 ""
           never_cancelled [])
    = EvResolve "host" 80 [cand_A; cand_B]
      :: mid ++ [EvFreeaddrinfo [cand_A; cand_B]] /\
    forallb (fun e => negb (is_resolve_or_free e)) mid = true.
Proof.
  refine (resolved_call_frees_once linux (sample_os [cand_A; cand_B] 0 fates)
            never_cancelled "host" 80 "" [] _).
  discriminate.
Defined.

Lemma success_only_on_zero_pending_error_witness :
  sockets_closed (sample_connected addr_B) = O /\
  total (one_if is_getsockopt) (sample_connected addr_B) = 1.
Proof.
  exact (proj2 (success_only_on_zero_pending_error linux
                  (sample_os [cand_B] 0 fates) never_cancelled cand_B 7 "" []
                  3 "" (sample_connected addr_B) eq_refl)).
Defined.

Lemma success_keeps_last_message_witness :
  fst (connect linux (sample_os [cand_A; cand_B; cand_C] 0 fates) "host" 80 ""
         never_cancelled [])
  = (3, "Connection refused").
Proof.
  exact (proj1 (success_keeps_last_message linux
                  (sample_os [cand_A; cand_B; cand_C] 0 fates) never_cancelled
                  "host" 80 "" [] [cand_A] cand_B [cand_C] "Connection refused"
                  (sample_refused addr_A) 3 "Connection refused"
                  (sample_connected addr_B) eq_refl
                  (sample_A_refused [cand_A; cand_B; cand_C]) eq_refl)).
Defined.

Lemma cancelled_call_never_waits_witness :
  fst (fst (connect linux (sample_os [cand_A; cand_B] 0 fates) "host" 80 ""
              always_cancelled [])) = -1 /\
  total (one_if is_select)
    (snd (connect linux (sample_os [cand_A; cand_B] 0 fates) "host" 80 ""
            always_cancelled [])) = 0 /\
  total (one_if is_getsockopt)
    (snd (connect linux (sample_os [cand_A; cand_B] 0 fates) "host" 80 ""
            always_cancelled [])) = 0 /\
  socket_calls
    (snd (connect linux (sample_os [cand_A; cand_B] 0 fates) "host" 80 ""
            always_cancelled []))
  = [(2, 1, 6); (2, 1, 6)].
Proof.
  refine (cancelled_call_never_waits linux (sample_os [cand_A; cand_B] 0 fates)
            always_cancelled "host" 80 "" [] _).
  intros h'. reflexivity.
Defined.

Lemma silent_candidates_use_full_budget_witness :
  fst (connect linux (silent_os [cand_A; cand_B]) "host" 80 ""
         never_cancelled [])
  = (-1, "connect timed out after 60 seconds") /\
  total (one_if is_select)
    (snd (connect linux (silent_os [cand_A; cand_B]) "host" 80 ""
            never_cancelled [])) = 2400.
Proof.
  pose proof (silent_candidates_use_full_budget linux
                (silent_os [cand_A; cand_B]) never_cancelled
                (fun _ _ _ _ => ltac:(cbn; lia)) (fun _ => eq_refl)
                (fun _ => eq_refl) (fun _ _ _ => eq_refl) "host" 80 "" [])
    as (H1 & H2 & _ & H4).
  cbv zeta in H1, H2, H4. split.
  - rewrite (surjective_pairing (fst (connect _ _ _ _ _ _ _))).
    rewrite H1, H4; [reflexivity|discriminate].
  - exact H2.
Defined.

(** ** Sample runs *)

Example run_refused_then_reachable :
  connect linux (sample_os [cand_A; cand_B] 0 fates) "host" 80 "" never_cancelled []
  = ((3, "Connection refused"),
     [EvResolve "host" 80 [cand_A; cand_B];
      EvSocket 2 1 6 3;
      EvSetsockopt 3 IPPROTO_TCP TCP_NODELAY 1 0;
      EvFcntl 3 F_SETFL O_NONBLOCK 0;
      EvConnect 3 addr_A 16 (-1);
      EvCancel false; EvSelect 3 50000 true;
      EvGetsockopt 3 SOL_SOCKET SO_ERROR 0 111; EvClose 3;
      EvSocket 2 1 6 3;
      EvSetsockopt 3 IPPROTO_TCP TCP_NODELAY 1 0;
      EvFcntl 3 F_SETFL O_NONBLOCK 0;
      EvConnect 3 addr_B 16 (-1);
      EvCancel false; EvSelect 3 50000 true;
      EvGetsockopt 3 SOL_SOCKET SO_ERROR 0 0;
      EvFreeaddrinfo [cand_A; cand_B]]).
Proof. vm_compute. reflexivity. Qed.

Example run_cancelled_twice :
  connect linux (sample_os [cand_A; cand_B] 0 fates) "host" 80 "" always_cancelled []
  = ((-1, "Cancelled"),
     [EvResolve "host" 80 [cand_A; cand_B];
      EvSocket 2 1 6 3;
      EvSetsockopt 3 IPPROTO_TCP TCP_NODELAY 1 0;
      EvFcntl 3 F_SETFL O_NONBLOCK 0;
      EvConnect 3 addr_A 16 (-1);
      EvCancel true; EvClose 3;
      EvSocket 2 1 6 3;
      EvSetsockopt 3 IPPROTO_TCP TCP_NODELAY 1 0;
      EvFcntl 3 F_SETFL O_NONBLOCK 0;
      EvConnect 3 addr_B 16 (-1);
      EvCancel true; EvClose 3;
      EvFreeaddrinfo [cand_A; cand_B]]).
Proof. vm_compute. reflexivity. Qed.

Example run_timed_out_then_reachable :
  fst (connect linux (sample_os [cand_C; cand_B] 0 fates) "host" 80 ""
         never_cancelled [])
  = (3, "connect timed out after 60 seconds").
Proof. vm_compute. reflexivity. Qed.
